(** * Build validation script of the OpenTelemetry browser packages

    A shallow embedding of the post-build validation script (the script
    that checks syntax compliance, web API baseline, package exports and
    integrity, bundle size and module integrity of every package that has a
    [dist] directory), and the properties of its control flow.

    The script is sequential and talks to two kinds of things: the file
    system and child processes.  Both are made explicit:

    - what the script only reads is a field of [World] (directory listings,
      manifests, source maps, exit statuses of the checkers);
    - what the script changes is a field of [FS] (the listing of every
      package directory, which [npm pack] and [fs.renameSync] change, and
      the temporary directories);
    - every function of the script that logs, spawns or writes is a
      computation in the monad [M], which threads the [FS], collects the
      [Event]s in the order they happen and ends in a value, a thrown
      exception or [process.exit].

    What can fail is what the script itself provides for, or reads as
    data: a child process may exit with any status, a manifest or a source
    map may be unreadable or malformed (the read throws), an archive may be
    missing from a listing, a module may fail to load.  Listing a
    directory, testing that a file exists, and making, filling and removing
    a temporary directory are taken to succeed. *)

From Stdlib Require Import ZArith String Ascii List Bool Lia.
From stdpp Require Import base option list gmap strings pretty.
Import ListNotations.
Set Warnings "-register-all".
Local Open Scope string_scope.
Local Open Scope list_scope.

(** ** JavaScript strings *)

Module JsString.

(** [s.startsWith(p)] *)
Definition startsWith (s p : string) : bool := String.prefix p s.

(** [s.endsWith(p)] *)
Definition endsWith (s p : string) : bool :=
  let n := String.length s in
  let m := String.length p in
  if (m <=? n)%nat then String.eqb (String.substring (n - m) m s) p else false.

(** [s.includes(p)] *)
Fixpoint includes (s p : string) : bool :=
  String.prefix p s ||
  match s with
  | EmptyString => false
  | String _ s' => includes s' p
  end.

Fixpoint drop (n : nat) (s : string) : string :=
  match n, s with
  | O, _ => s
  | S n', String _ s' => drop n' s'
  | S _, EmptyString => EmptyString
  end.

(** [s.replace(pat, rep)] with a string pattern: the first occurrence only. *)
Fixpoint replace (s pat rep : string) : string :=
  if String.prefix pat s then rep ++ drop (String.length pat) s
  else match s with
       | EmptyString => EmptyString
       | String c s' => String c (replace s' pat rep)
       end.

Definition is_space (c : ascii) : bool :=
  let n := nat_of_ascii c in
  (n =? 32)%nat || ((9 <=? n)%nat && (n <=? 13)%nat).

Fixpoint trimStart (s : string) : string :=
  match s with
  | String c s' => if is_space c then trimStart s' else s
  | EmptyString => EmptyString
  end.

Fixpoint rev_onto (s acc : string) : string :=
  match s with
  | EmptyString => acc
  | String c s' => rev_onto s' (String c acc)
  end.

(** [s.trim()], for the ASCII white space characters. *)
Definition trim (s : string) : string :=
  rev_onto (trimStart (rev_onto (trimStart s) EmptyString)) EmptyString.

(** [s.slice(0, n)] *)
Definition slice0 (n : nat) (s : string) : string := String.substring 0 n s.

End JsString.

(** ** JavaScript values

    The values the script tests for truthiness: the result of [JSON.parse]
    on a source map, and the module namespace object that the import check
    binds. *)

Inductive Value : Type :=
| VUndefined
| VNull
| VBool (b : bool)
| VNumber (n : Z)          (* only its being zero or not is used *)
| VString (s : string)
| VArray (elements : list Value)
| VObject (properties : list (string * Value)).

Module Js.

(** [ToBoolean] *)
Definition truthy (v : Value) : bool :=
  match v with
  | VUndefined | VNull => false
  | VBool b => b
  | VNumber n => negb (n =? 0)%Z
  | VString s => negb (String.eqb s "")
  | VArray _ | VObject _ => true
  end.

Fixpoint lookup_property (key : string) (kvs : list (string * Value)) : Value :=
  match kvs with
  | [] => VUndefined
  | (k, v) :: rest => if String.eqb k key then v else lookup_property key rest
  end.

(** [v.key] for an own property or [length]; [None] is the [TypeError]
    of reading a property of [null] or [undefined]. *)
Definition get (v : Value) (key : string) : option Value :=
  match v with
  | VUndefined | VNull => None
  | VBool _ | VNumber _ => Some VUndefined
  | VString s =>
      Some (if String.eqb key "length" then VNumber (Z.of_nat (String.length s))
            else VUndefined)
  | VArray l =>
      Some (if String.eqb key "length" then VNumber (Z.of_nat (List.length l))
            else VUndefined)
  | VObject kvs => Some (lookup_property key kvs)
  end.

(** [v?.key] *)
Definition get_optional (v : Value) (key : string) : Value :=
  match v with
  | VUndefined | VNull => VUndefined
  | _ => default VUndefined (get v key)
  end.

End Js.

(** ** Manifests *)

Record PackageJson : Type := {
  name : option string;                    (* [None]: no [name] field *)
  dependencies : gmap string string;       (* absent = empty *)
  peerDependencies : gmap string string;   (* absent = empty *)
  private : bool;                          (* truthiness of the field *)
}.

(** ** The world the script reads *)

(** What loading a module by name in a temporary directory gives. *)
Inductive LoadResult : Type :=
| LoadError                                       (* resolution or evaluation fails *)
| Namespace (bindings : list (string * Value)).   (* the exported bindings *)

(** A temporary directory: the files moved or written into it and the
    archives installed in it, oldest first. *)
Record Sandbox : Type := {
  files : list string;
  installed : list string;
}.

Record World : Type := {
  (** [fs.readdirSync(PACKAGES_DIR)] *)
  packages_dir : list string;
  (** [fs.existsSync(PACKAGES_DIR/pkg/dist)] *)
  has_dist : string -> bool;
  (** [JSON.parse(fs.readFileSync(PACKAGES_DIR/pkg/package.json))];
      [None] when reading or parsing throws *)
  package_json : string -> option PackageJson;
  (** [fs.readdirSync(PACKAGES_DIR/pkg/dist)] *)
  dist_dir : string -> list string;
  (** whether [dist/file] exists *)
  dist_exists : string -> string -> bool;
  (** [JSON.parse(fs.readFileSync(dist/file))]; [None] when it throws *)
  dist_json : string -> string -> option Value;
  (** [fs.readFileSync(dist/file, 'utf-8')] *)
  dist_text : string -> string -> string;
  (** byte length of [dist/file] and of its gzip compression *)
  dist_size : string -> string -> N;
  dist_gzip_size : string -> string -> N;
  (** exit status of [npx es-check es2022 dist/**/*.js --module];
      [None] is the [null] status of a child that did not exit *)
  es_check : string -> option Z;
  (** exit status and standard error of [npm run check:eslint:dist] *)
  eslint_dist : option Z * string;
  (** exit status of [npx publint] in a package, and the [stdout] of the
      error that [execSync] throws: a Buffer, or [None] for [null] *)
  publint : string -> option Z * option string;
  (** exit status and standard output of [grep -r 'require(' dist] *)
  grep_require : string -> option Z * string;
  (** [npm pack --quiet] in a package directory with the given listing:
      exit status and the listing it leaves *)
  npm_pack : string -> list string -> option Z * list string;
  (** exit status of [npm install ./archive] in a temporary directory *)
  npm_install : Sandbox -> string -> option Z;
  (** what [import * as pkg from 'name'] gives in a temporary directory *)
  esm_import : Sandbox -> string -> LoadResult;
}.

(** ** The state the script changes *)

Record FS : Type := {
  (** listing of [PACKAGES_DIR/pkg], absent = empty *)
  pkgdirs : gmap string (list string);
  (** the temporary directories that exist, by the number [mkdtemp] gave them *)
  sandboxes : gmap nat Sandbox;
  (** number of temporary directories made so far *)
  next_tmp : nat;
}.

Inductive Color : Type := red | green | yellow | blue | dim | bold | reset.

Inductive Command : Type :=
| EsCheck (pkg : string)
| EslintDist
| Publint (pkg : string)
| GrepRequire (pkg : string)
| NpmPack (pkg : string)
| NpmInstallDep (tempDir : nat) (depPkg : string)   (* npm install ./depPkg.tgz *)
| NpmInstallMain (tempDir : nat)                    (* npm install ./package.tgz *)
| NodeImport (tempDir : nat) (pkgName : string).

Inductive Event : Type :=
| Log (colors : list Color) (message : string)
| LogSection (title : string)
| LogSize (pkg : string) (totalRaw totalGzip : N) (color : Color)
| Spawn (c : Command) (status : option Z)
| Mkdtemp (tempDir : nat)
| Rename (pkg file : string) (tempDir : nat) (dest : string)
| WriteFile (tempDir : nat) (file content : string)
| RmSync (tempDir : nat).

(** ** The monad of the script *)

Inductive Outcome (A : Type) : Type :=
| Ret (a : A)
| Throw (message : string)
| Exit (code : Z).
Arguments Ret {A} a.
Arguments Throw {A} message.
Arguments Exit {A} code.

Record Run (A : Type) : Type := MkRun {
  outcome : Outcome A;
  final : FS;
  trace : list Event;
}.
Arguments MkRun {A} outcome final trace.
Arguments outcome {A} r.
Arguments final {A} r.
Arguments trace {A} r.

Definition M (A : Type) : Type := FS -> Run A.

Definition ret {A} (a : A) : M A := fun s => MkRun (Ret a) s [].
Definition throw {A} (message : string) : M A := fun s => MkRun (Throw message) s [].
Definition exit {A} (code : Z) : M A := fun s => MkRun (Exit code) s [].
Definition emit (e : Event) : M unit := fun s => MkRun (Ret tt) s [e].
Definition get_fs : M FS := fun s => MkRun (Ret s) s [].
Definition put_fs (s : FS) : M unit := fun _ => MkRun (Ret tt) s [].

Definition bind {A B} (m : M A) (k : A -> M B) : M B := fun s =>
  let r := m s in
  match outcome r with
  | Ret a => let r' := k a (final r) in
             MkRun (outcome r') (final r') (trace r ++ trace r')
  | Throw e => MkRun (Throw e) (final r) (trace r)
  | Exit c => MkRun (Exit c) (final r) (trace r)
  end.

Declare Scope js_scope.
Delimit Scope js_scope with js.
Notation "x <- c1 ;; c2" := (bind c1 (fun x => c2))
  (at level 100, c1 at next level, right associativity) : js_scope.
Notation "c1 ;; c2" := (bind c1 (fun _ => c2))
  (at level 100, right associativity) : js_scope.
Local Open Scope js_scope.

(** An outcome computed without effects, run in [M]. *)
Definition lift {A} (o : Outcome A) : M A := fun s => MkRun o s [].

(** [try { body } catch (error) { handler } finally { finalizer }].
    [process.exit] ends the process at once: no handler and no finalizer
    runs after it. *)
Definition try_catch_finally {A}
    (body : M A) (handler : string -> M A) (finalizer : M unit) : M A := fun s =>
  let r := body s in
  let r1 :=
    match outcome r with
    | Throw e => let h := handler e (final r) in
                 MkRun (outcome h) (final h) (trace r ++ trace h)
    | _ => r
    end in
  match outcome r1 with
  | Exit c => r1
  | o => let f := finalizer (final r1) in
         match outcome f with
         | Ret _ => MkRun o (final f) (trace r1 ++ trace f)
         | Throw e => MkRun (Throw e) (final f) (trace r1 ++ trace f)
         | Exit c => MkRun (Exit c) (final f) (trace r1 ++ trace f)
         end
  end.

(** [try { body } catch (error) { handler }] *)
Definition try_catch {A} (body : M A) (handler : string -> M A) : M A :=
  try_catch_finally body handler (ret tt).

(** [for (const x of xs) body(x)] *)
Fixpoint for_of {A} (xs : list A) (body : A -> M unit) : M unit :=
  match xs with
  | [] => ret tt
  | x :: rest => body x ;; for_of rest body
  end.


(** [for (const x of xs) body(x)] where the body updates a local variable. *)
Fixpoint for_fold {A S} (xs : list A) (acc : S) (body : A -> S -> M S) : M S :=
  match xs with
  | [] => ret acc
  | x :: rest => acc' <- body x acc ;; for_fold rest acc' body
  end.

(** [for (const x of xs) body(x)] where the body may [return]: the body
    gives [Some r] to return [r] from the function and [None] to go on. *)
Fixpoint for_return {A R} (xs : list A) (body : A -> M (option R)) : M (option R) :=
  match xs with
  | [] => ret None
  | x :: rest =>
      r <- body x ;;
      match r with
      | Some v => ret (Some v)
      | None => for_return rest body
      end
  end.

(** Computations that only read the world end in an [Outcome]. *)
Definition obind {A B} (o : Outcome A) (k : A -> Outcome B) : Outcome B :=
  match o with
  | Ret a => k a
  | Throw e => Throw e
  | Exit c => Exit c
  end.

(** [xs.map(f)] where [f] may throw *)
Fixpoint omap {A B} (f : A -> Outcome B) (xs : list A) : Outcome (list B) :=
  match xs with
  | [] => Ret []
  | x :: rest => obind (f x) (fun y => obind (omap f rest) (fun ys => Ret (y :: ys)))
  end.

(** [xs.filter(f)] where [f] may throw *)
Fixpoint ofilter {A} (f : A -> Outcome bool) (xs : list A) : Outcome (list A) :=
  match xs with
  | [] => Ret []
  | x :: rest =>
      obind (f x) (fun b =>
      obind (ofilter f rest) (fun ys => Ret (if b then x :: ys else ys)))
  end.

(** ** Primitives *)

Definition nl : string := String (ascii_of_nat 10) EmptyString.
Definition dq : string := String (ascii_of_nat 34) EmptyString.

Definition log (message : string) (color : Color) : M unit :=
  emit (Log [color] message).

Definition logSection (title : string) : M unit :=
  emit (LogSection title).

(** A child process succeeded: its exit status is [0]. *)
Definition succeeded (status : option Z) : bool :=
  match status with
  | Some 0%Z => true
  | _ => false
  end.

Definition command_line (c : Command) : string :=
  match c with
  | EsCheck pkg => "npx es-check es2022 " ++ pkg ++ "/dist/**/*.js --module"
  | EslintDist => "npm run check:eslint:dist"
  | Publint _ => "npx publint"
  | GrepRequire pkg => "grep -r require( " ++ pkg ++ "/dist --include=*.js"
  | NpmPack _ => "npm pack --quiet"
  | NpmInstallDep _ depPkg => "npm install ./" ++ depPkg ++ ".tgz"
  | NpmInstallMain _ => "npm install ./package.tgz"
  | NodeImport _ pkgName =>
      "node --input-type=module -e " ++ dq ++ "import * as pkg from '" ++ pkgName
      ++ "'; if (!pkg) process.exit(1);" ++ dq
  end.

(** [spawnSync]: the status is handed back. *)
Definition spawnSync (c : Command) (status : option Z) : M (option Z) :=
  emit (Spawn c status) ;; ret status.

(** [execSync]: throws unless the child exits with status [0]. *)
Definition execSync (c : Command) (status : option Z) : M unit :=
  emit (Spawn c status) ;;
  if succeeded status then ret tt
  else throw ("Command failed: " ++ command_line c).

Definition readdir (s : FS) (pkg : string) : list string :=
  default [] (pkgdirs s !! pkg).

Definition empty_sandbox : Sandbox := {| files := []; installed := [] |}.

Definition add_file (f : string) (sb : Sandbox) : Sandbox :=
  {| files := if bool_decide (f ∈ files sb) then files sb else files sb ++ [f];
     installed := installed sb |}.

Definition add_installed (f : string) (sb : Sandbox) : Sandbox :=
  {| files := files sb; installed := installed sb ++ [f] |}.

(** [fs.mkdtempSync(path.join(ROOT, '.tmp-'))]: a fresh, empty directory. *)
Definition mkdtempSync : M nat :=
  s <- get_fs ;;
  let d := next_tmp s in
  put_fs {| pkgdirs := pkgdirs s;
            sandboxes := <[d := empty_sandbox]> (sandboxes s);
            next_tmp := S d |} ;;
  emit (Mkdtemp d) ;;
  ret d.

(** [fs.rmSync(tempDir, { recursive: true, force: true })] *)
Definition rmSync (tempDir : nat) : M unit :=
  s <- get_fs ;;
  put_fs {| pkgdirs := pkgdirs s;
            sandboxes := delete tempDir (sandboxes s);
            next_tmp := next_tmp s |} ;;
  emit (RmSync tempDir).

(** The temporary directory a step runs in; a step in a directory that
    does not exist throws. *)
Definition sandbox_of (tempDir : nat) : M Sandbox :=
  s <- get_fs ;;
  match sandboxes s !! tempDir with
  | Some sb => ret sb
  | None => throw "ENOENT: no such file or directory"
  end.

Definition put_sandbox (tempDir : nat) (sb : Sandbox) : M unit :=
  s <- get_fs ;;
  put_fs {| pkgdirs := pkgdirs s;
            sandboxes := <[tempDir := sb]> (sandboxes s);
            next_tmp := next_tmp s |}.

Definition remove_file (f : string) (l : list string) : list string :=
  List.filter (fun g => negb (String.eqb g f)) l.

(** [fs.renameSync(PACKAGES_DIR/pkg/file, tempDir/dest)] *)
Definition renameSync (pkg file : string) (tempDir : nat) (dest : string) : M unit :=
  sb <- sandbox_of tempDir ;;
  s <- get_fs ;;
  put_fs {| pkgdirs := <[pkg := remove_file file (readdir s pkg)]> (pkgdirs s);
            sandboxes := <[tempDir := add_file dest sb]> (sandboxes s);
            next_tmp := next_tmp s |} ;;
  emit (Rename pkg file tempDir dest).

(** [fs.writeFileSync(tempDir/file, content)] *)
Definition writeFileSync (tempDir : nat) (file content : string) : M unit :=
  sb <- sandbox_of tempDir ;;
  put_sandbox tempDir (add_file file sb) ;;
  emit (WriteFile tempDir file content).

(** [execSync('npm pack --quiet', { cwd: PACKAGES_DIR/pkg })] *)
Definition npmPack (w : World) (pkg : string) : M unit :=
  s <- get_fs ;;
  let r := npm_pack w pkg (readdir s pkg) in
  put_fs {| pkgdirs := <[pkg := r.2]> (pkgdirs s);
            sandboxes := sandboxes s;
            next_tmp := next_tmp s |} ;;
  execSync (NpmPack pkg) r.1.

(** [execSync('npm install ./archive', { cwd: tempDir })] *)
Definition npmInstall (w : World) (tempDir : nat) (c : Command) (archive : string)
  : M unit :=
  sb <- sandbox_of tempDir ;;
  let status := npm_install w sb archive in
  (if succeeded status then put_sandbox tempDir (add_installed archive sb) else ret tt) ;;
  execSync c status.

(** ** The script *)

Section Script.

Variable w : World.

Definition getPackagesWithDist : list string :=
  List.filter (has_dist w) (packages_dir w).

Definition getPackageJson (pkgName : string) : Outcome PackageJson :=
  match package_json w pkgName with
  | Some pkgJson => Ret pkgJson
  | None => Throw ("Cannot read " ++ pkgName ++ "/package.json")
  end.

(** The body of the loop of [checkSyntaxCompliance]. *)
Definition checkSyntax (pkg : string) (failures : list string) : M (list string) :=
  status <- spawnSync (EsCheck pkg) (es_check w pkg) ;;
  if negb (succeeded status) then
    log ("  ✗ " ++ pkg) red ;;
    ret (failures ++ [pkg])
  else
    log ("  ✓ " ++ pkg) green ;;
    ret failures.

(** Verifies compiled bundles parse as expected ES version *)
Definition checkSyntaxCompliance : M bool :=
  logSection "1. Syntax Compliance (es-check)" ;;
  let packages := getPackagesWithDist in
  if (List.length packages =? 0)%nat then
    log "  ⚠ No packages with dist/ found" yellow ;;
    ret true
  else
    failures <- for_fold packages [] checkSyntax ;;
    if (0 <? List.length failures)%nat then ret false
    else
      log (nl ++ "✓ All syntax checks passed") green ;;
      ret true.

(** Runs eslint baseline-js on compiled output to catch non-baseline APIs
    from dependencies *)
Definition checkBaselineAPIs : M bool :=
  logSection "2. Web API Baseline (eslint)" ;;
  status <- spawnSync EslintDist (eslint_dist w).1 ;;
  if negb (succeeded status) then
    log "  ✗ Non-baseline APIs found in compiled output" red ;;
    (if Js.truthy (VString (eslint_dist w).2)
     then log (JsString.trim (eslint_dist w).2) dim
     else ret tt) ;;
    ret false
  else
    log "  ✓ All APIs are baseline compatible" green ;;
    ret true.

(** The body of the loop of [validateSourcemaps]: [Some false] is
    [return false], [None] goes on to the next file. *)
Definition validateSourcemap (pkgName jsFile : string) : M (option bool) :=
  let mapFile := (jsFile ++ ".map")%string in
  if negb (dist_exists w pkgName mapFile) then
    ret None (* Some files may not have sourcemaps *)
  else
    returned <- try_catch
      (match dist_json w pkgName mapFile with
       | None => throw "Unexpected token in JSON"
       | Some map =>
           match Js.get map "sources" with
           | None => throw "Cannot read properties of null (reading 'sources')"
           | Some sources =>
               if negb (Js.truthy (Js.get_optional sources "length")) then
                 log ("    ✗ " ++ mapFile ++ " has no sources") red ;;
                 ret (Some false)
               else ret None
           end
       end)
      (fun message =>
         log ("    ✗ Invalid sourcemap " ++ mapFile ++ ": " ++ message) red ;;
         ret (Some false)) ;;
    match returned with
    | Some r => ret (Some r)
    | None =>
        (* Check sourcemap reference in JS file *)
        let jsContent := dist_text w pkgName jsFile in
        if negb (JsString.includes jsContent "sourceMappingURL=") then
          log ("    ✗ " ++ jsFile ++ " missing sourcemap reference") red ;;
          ret (Some false)
        else ret None
    end.

Definition jsFilesOf (pkgName : string) : list string :=
  List.filter (fun f => JsString.endsWith f ".js") (dist_dir w pkgName).

Definition validateSourcemaps (pkgName : string) : M bool :=
  let jsFiles := jsFilesOf pkgName in
  returned <- for_return jsFiles (validateSourcemap pkgName) ;;
  match returned with
  | Some r => ret r
  | None => ret true
  end.

(** [Object.keys(o)] *)
Definition Object_keys (o : gmap string string) : list string :=
  (map_to_list o).*1.

(** [{ ...pkgJson.dependencies, ...pkgJson.peerDependencies }]: on a key
    of both, the later spread wins. *)
Definition allDepsOf (pkgJson : PackageJson) : gmap string string :=
  peerDependencies pkgJson ∪ dependencies pkgJson.

(** [Object.keys(allDeps).includes(x)]: the keys are strings, and
    [undefined] is none of them. *)
Definition keys_include (allDeps : gmap string string) (x : option string) : bool :=
  match x with
  | Some n => bool_decide (n ∈ Object_keys allDeps)
  | None => false
  end.

Definition getWorkspaceDependencies (pkgJson : PackageJson) : Outcome (list string) :=
  let allDeps := allDepsOf pkgJson in
  let workspacePackages := getPackagesWithDist in
  obind (omap (fun pkg => obind (getPackageJson pkg) (fun j => Ret (name j)))
              workspacePackages) (fun workspaceNames =>
  ofilter (fun pkg =>
             obind (getPackageJson pkg) (fun j =>
             if bool_decide (name j ∈ workspaceNames) then
               obind (getPackageJson pkg) (fun j' => Ret (keys_include allDeps (name j')))
             else Ret false))
          workspacePackages).

(** [name.replace('@', '').replace('/', '-')]; calling [replace] on
    [undefined] throws. *)
Definition safeNameOf (n : option string) : Outcome string :=
  match n with
  | Some s => Ret (JsString.replace (JsString.replace s "@" "") "/" "-")
  | None => Throw "Cannot read properties of undefined (reading 'replace')"
  end.

(** [listing.find((f) => f.startsWith(safeName) && f.endsWith('.tgz'))].
    An entry that is found ends in [.tgz], so it is a truthy string. *)
Definition findTarball (listing : list string) (safeName : string) : option string :=
  List.find (fun f => JsString.startsWith f safeName && JsString.endsWith f ".tgz")
            listing.

(** [`${x}`] *)
Definition template (x : option string) : string := default "undefined" x.

(** The program of the import check, on what the import gives: the exit
    status of [node]. *)
Definition import_check (r : LoadResult) : Z :=
  match r with
  | LoadError => 1
  | Namespace bindings =>
      let pkg := VObject bindings in
      if negb (Js.truthy pkg) then 1 else 0
  end.

(** The body of the first loop of [testPackageImports]. *)
Definition packWorkspaceDependency (tempDir : nat) (depPkg : string) : M unit :=
  npmPack w depPkg ;;
  depJson <- lift (getPackageJson depPkg) ;;
  safeName <- lift (safeNameOf (name depJson)) ;;
  s <- get_fs ;;
  match findTarball (readdir s depPkg) safeName with
  | Some tarball => renameSync depPkg tarball tempDir (depPkg ++ ".tgz")
  | None => ret tt
  end.

(** Pack the main package *)
Definition packMainPackage (tempDir : nat) (pkgName : string) (pkgJson : PackageJson)
  : M unit :=
  npmPack w pkgName ;;
  safeName <- lift (safeNameOf (name pkgJson)) ;;
  s <- get_fs ;;
  match findTarball (readdir s pkgName) safeName with
  | None => throw ("Failed to create tarball for " ++ pkgName)
  | Some tarball => renameSync pkgName tarball tempDir "package.tgz"
  end.

(** Test ESM import *)
Definition testEsmImport (tempDir : nat) (pkgJson : PackageJson) : M unit :=
  sb <- sandbox_of tempDir ;;
  let pkgName := template (name pkgJson) in
  execSync (NodeImport tempDir pkgName)
           (Some (import_check (esm_import w sb pkgName))).

(** [JSON.stringify({ type: 'module' })] *)
Definition testPkgJson : string :=
  "{" ++ dq ++ "type" ++ dq ++ ":" ++ dq ++ "module" ++ dq ++ "}".

(** The [try] block of [testPackageImports]. *)
Definition testPackageImports_try (tempDir : nat) (pkgName : string)
    (pkgJson : PackageJson) : M bool :=
  (* Pack workspace dependencies first *)
  workspaceDeps <- lift (getWorkspaceDependencies pkgJson) ;;
  for_of workspaceDeps (packWorkspaceDependency tempDir) ;;
  packMainPackage tempDir pkgName pkgJson ;;
  (* Create package.json with workspace deps as file references *)
  writeFileSync tempDir "package.json" testPkgJson ;;
  (* Install workspace dependencies first *)
  for_of workspaceDeps (fun depPkg =>
    npmInstall w tempDir (NpmInstallDep tempDir depPkg) (depPkg ++ ".tgz")) ;;
  (* Install the main package *)
  npmInstall w tempDir (NpmInstallMain tempDir) "package.tgz" ;;
  testEsmImport tempDir pkgJson ;;
  ret true.

Definition testPackageImports (pkgName : string) : M bool :=
  pkgJson <- lift (getPackageJson pkgName) ;;
  (* Skip import test for private packages (internal workspace deps) *)
  if private pkgJson then
    log "    ⊘ Skipped (private package)" dim ;;
    ret true
  else
    tempDir <- mkdtempSync ;;
    try_catch_finally
      (testPackageImports_try tempDir pkgName pkgJson)
      (fun message =>
         log ("    ✗ Import test failed: " ++ message) red ;;
         ret false)
      (rmSync tempDir).

(** The body of the first loop of [checkPackageExports]; a [continue]
    after [allPassed = false] ends the body with [false]. *)
Definition checkPackage (pkg : string) (allPassed : bool) : M bool :=
  log ("  " ++ pkg ++ ":") blue ;;
  (* Validate sourcemaps *)
  valid <- validateSourcemaps pkg ;;
  if negb valid then ret false
  else
    log "    ✓ Sourcemaps valid" green ;;
    (* Test imports *)
    imports <- testPackageImports pkg ;;
    if negb imports then ret false
    else
      log "    ✓ ESM imports work" green ;;
      ret allPassed.

(** The body of the second loop of [checkPackageExports].  In the
    [catch], [error.stdout] is a Buffer, which is truthy also when empty. *)
Definition runPublint (pkg : string) : M unit :=
  try_catch
    (execSync (Publint pkg) (publint w pkg).1 ;;
     log ("    ✓ " ++ pkg) green)
    (fun _ =>
       log ("    ⚠ " ++ pkg ++ " (warnings)") yellow ;;
       match (publint w pkg).2 with
       | Some stdout => log ("      " ++ JsString.trim stdout) dim
       | None => ret tt
       end).

Definition checkPackageExports : M bool :=
  logSection "3. Package Exports & Integrity" ;;
  let packages := getPackagesWithDist in
  allPassed <- for_fold packages true checkPackage ;;
  (* Run publint on each package *)
  log (nl ++ "  Running publint...") blue ;;
  for_of packages runPublint ;;
  (if allPassed then log (nl ++ "✓ Package exports valid") green else ret tt) ;;
  ret allPassed.

Definition MAX_SIZE_KB : N := 50.

(** The body of the loop of [checkBundleSize].  The line it logs gives
    the two sizes in KB with two decimals; here it is the event
    [LogSize] with the two sizes in bytes. *)
Definition reportSize (pkg : string) : M unit :=
  let jsFiles :=
    List.filter (fun f => JsString.endsWith f ".js" && negb (JsString.endsWith f ".map"))
                (dist_dir w pkg) in
  let totalRaw := fold_left (fun acc f => (acc + dist_size w pkg f)%N) jsFiles 0%N in
  let totalGzip := fold_left (fun acc f => (acc + dist_gzip_size w pkg f)%N) jsFiles 0%N in
  (* gzipKB > MAX_SIZE_KB, with gzipKB = totalGzip / 1024 *)
  let color := if (MAX_SIZE_KB * 1024 <? totalGzip)%N then yellow else green in
  emit (LogSize pkg totalRaw totalGzip color).

Definition checkBundleSize : M bool :=
  logSection "4. Bundle Size" ;;
  let packages := getPackagesWithDist in
  for_of packages reportSize ;;
  ret true.

(** The body of the loop of [validateModuleIntegrity]. *)
Definition checkModule (pkg : string) (allPassed : bool) : M bool :=
  status <- spawnSync (GrepRequire pkg) (grep_require w pkg).1 ;;
  if succeeded status then
    (* Found matches - this is bad *)
    log ("  ✗ " ++ pkg ++ ": Found require() in ESM files") red ;;
    (if Js.truthy (VString (grep_require w pkg).2)
     then log ("    " ++ JsString.slice0 200 (JsString.trim (grep_require w pkg).2)) dim
     else ret tt) ;;
    ret false
  else
    log ("  ✓ " ++ pkg ++ ": No require() in ESM files") green ;;
    ret allPassed.

(** Validates ESM files don't use require() (causes runtime errors) *)
Definition validateModuleIntegrity : M bool :=
  logSection "5. Module Integrity" ;;
  let packages := getPackagesWithDist in
  allPassed <- for_fold packages true checkModule ;;
  (if allPassed then log (nl ++ "✓ Module integrity validated") green else ret tt) ;;
  ret allPassed.

(** The five stages, in the order [main] runs them. *)
Definition stages : list (string * M bool) :=
  [ ("Syntax compliance", checkSyntaxCompliance);
    ("Web API baseline", checkBaselineAPIs);
    ("Package exports", checkPackageExports);
    ("Bundle size", checkBundleSize);
    ("Module integrity", validateModuleIntegrity) ].

(** The array literal of [main]: every element is evaluated, left to right. *)
Fixpoint run_stages (l : list (string * M bool)) : M (list (string * bool)) :=
  match l with
  | [] => ret []
  | (stage, check) :: rest =>
      passed <- check ;;
      results <- run_stages rest ;;
      ret ((stage, passed) :: results)
  end.

Definition main : M unit :=
  logSection "OpenTelemetry Browser Validation" ;;
  let packages := getPackagesWithDist in
  (if (List.length packages =? 0)%nat then
     log "✗ No packages with dist/ found. Run npm run build first." red ;;
     exit 1
   else ret tt) ;;
  log ("Found " ++ pretty (List.length packages) ++ " packages with dist/") dim ;;
  results <- run_stages stages ;;
  logSection "Validation Summary" ;;
  for_of results (fun '(stage, passed) =>
    log ("  " ++ (if passed then "✓" else "✗") ++ " " ++ stage)
        (if passed then green else red)) ;;
  let allPassed := forallb snd results in
  emit (Log (if allPassed then [green; bold] else [red; bold])
            (if allPassed then nl ++ "✓ All validations passed!"
             else nl ++ "✗ Some validations failed")) ;;
  exit (if allPassed then 0 else 1)%Z.

End Script.

(** * Vocabulary of the properties *)

(** The computation always returns a value. *)
Definition returns {A} (m : M A) : Prop := forall s, exists a, outcome (m s) = Ret a.

(** The computation never ends the process. *)
Definition no_exit {A} (m : M A) : Prop := forall s c, outcome (m s) <> Exit c.

(** Every event of the computation satisfies [P]. *)
Definition emits (P : Event -> Prop) {A} (m : M A) : Prop :=
  forall s, Forall P (trace (m s)).

(** The manifest of every package that has a [dist] directory can be read. *)
Definition readable (w : World) : bool :=
  forallb (fun pkg => bool_decide (is_Some (package_json w pkg))) (getPackagesWithDist w).

(** The declared name of a package, when its manifest can be read and has one. *)
Definition declared_name (w : World) (pkg : string) : option string :=
  package_json w pkg ≫= name.

(** The file system after [mkdtempSync] and after [rmSync]. *)
Definition after_mkdtemp (s : FS) : FS :=
  {| pkgdirs := pkgdirs s;
     sandboxes := <[next_tmp s := empty_sandbox]> (sandboxes s);
     next_tmp := S (next_tmp s) |}.

Definition after_rm (tempDir : nat) (s : FS) : FS :=
  {| pkgdirs := pkgdirs s;
     sandboxes := delete tempDir (sandboxes s);
     next_tmp := next_tmp s |}.

(** The file system with a temporary directory replaced. *)
Definition with_sandbox (tempDir : nat) (sb : Sandbox) (s : FS) : FS :=
  {| pkgdirs := pkgdirs s;
     sandboxes := <[tempDir := sb]> (sandboxes s);
     next_tmp := next_tmp s |}.

(** The file system after [npm pack] in a package directory. *)
Definition after_pack (w : World) (pkg : string) (s : FS) : FS :=
  {| pkgdirs := <[pkg := (npm_pack w pkg (readdir s pkg)).2]> (pkgdirs s);
     sandboxes := sandboxes s;
     next_tmp := next_tmp s |}.

(** The events that make and remove a temporary directory. *)
Definition lifecycle (e : Event) : bool :=
  match e with
  | Mkdtemp _ | RmSync _ => true
  | _ => false
  end.

(** Where an event stands among the installs and the import check. *)
Definition is_dep_install (e : Event) : bool :=
  match e with Spawn (NpmInstallDep _ _) _ => true | _ => false end.
Definition is_main_install (e : Event) : bool :=
  match e with Spawn (NpmInstallMain _) _ => true | _ => false end.
Definition is_import_check (e : Event) : bool :=
  match e with Spawn (NodeImport _ _) _ => true | _ => false end.

Definition before_main (e : Event) : bool :=
  negb (is_main_install e) && negb (is_import_check e).

Definition no_step (e : Event) : bool :=
  negb (is_dep_install e) && negb (is_main_install e) && negb (is_import_check e).

(** Every install of a dependency comes before every install of the main
    package, and an import check comes after a successful install of the
    main package in the same directory. *)
Definition installs_ordered (t : list Event) : Prop :=
  (forall i j e1 e2,
      t !! i = Some e1 -> t !! j = Some e2 ->
      is_dep_install e1 = true -> is_main_install e2 = true -> i < j) /\
  (forall k d n st,
      t !! k = Some (Spawn (NodeImport d n) st) ->
      exists j, j < k /\ t !! j = Some (Spawn (NpmInstallMain d) (Some 0%Z))).

(** The packages of a list on which the syntax checker fails. *)
Definition syntax_failures (w : World) (l : list string) : list string :=
  List.filter (fun pkg => negb (succeeded (es_check w pkg))) l.

(** Why the source map validator fails a compiled file: the line it logs,
    or [None] when the file passes. *)
Definition sourcemap_failure (w : World) (pkgName jsFile : string) : option string :=
  let mapFile := (jsFile ++ ".map")%string in
  if negb (dist_exists w pkgName mapFile) then None
  else
    match dist_json w pkgName mapFile with
    | None =>
        Some ("    ✗ Invalid sourcemap " ++ mapFile ++ ": Unexpected token in JSON")%string
    | Some map =>
        match Js.get map "sources" with
        | None =>
            Some ("    ✗ Invalid sourcemap " ++ mapFile
                  ++ ": Cannot read properties of null (reading 'sources')")%string
        | Some sources =>
            if negb (Js.truthy (Js.get_optional sources "length")) then
              Some ("    ✗ " ++ mapFile ++ " has no sources")%string
            else if negb (JsString.includes (dist_text w pkgName jsFile) "sourceMappingURL=")
            then Some ("    ✗ " ++ jsFile ++ " missing sourcemap reference")%string
            else None
        end
    end.

(** The lines of the summary of [main]. *)
Definition summary (b1 b2 b3 b4 b5 : bool) : list Event :=
  let line (passed : bool) (stage : string) :=
    Log [if passed then green else red]
        ("  " ++ (if passed then "✓" else "✗") ++ " " ++ stage) in
  let allPassed := b1 && b2 && b3 && b4 && b5 in
  [ LogSection "Validation Summary";
    line b1 "Syntax compliance";
    line b2 "Web API baseline";
    line b3 "Package exports";
    line b4 "Bundle size";
    line b5 "Module integrity";
    Log (if allPassed then [green; bold] else [red; bold])
        (if allPassed then nl ++ "✓ All validations passed!"
         else nl ++ "✗ Some validations failed") ].


(** * Worlds to run the script on *)

Definition manifest (n : string) (deps : list (string * string)) (priv : bool)
  : PackageJson :=
  {| name := Some n; dependencies := list_to_map deps;
     peerDependencies := ∅; private := priv |}.

(** [npm install ./archive] succeeds exactly when the archive is there. *)
Definition install_if_present (sb : Sandbox) (archive : string) : option Z :=
  if bool_decide (archive ∈ files sb) then Some 0%Z else Some 1%Z.

(** A workspace of three packages and a directory that was not built:
    [core] depends on [api] and on an external package, [tools] is
    private.  Every compiled file has a source map and refers to it, and
    every child process succeeds. *)
Definition demo_world : World :=
  {| packages_dir := ["api"; "core"; "docs"; "tools"];
     has_dist := fun pkg => negb (String.eqb pkg "docs");
     package_json := fun pkg =>
       if String.eqb pkg "api" then Some (manifest "@otel/api" [] false)
       else if String.eqb pkg "core" then
         Some (manifest "@otel/core" [("@otel/api", "^1.0.0"); ("lodash", "^4.0.0")] false)
       else if String.eqb pkg "docs" then Some (manifest "@otel/docs" [] false)
       else if String.eqb pkg "tools" then
         Some (manifest "@otel/tools" [("@otel/docs", "^1.0.0")] true)
       else None;
     dist_dir := fun _ => ["index.js"; "index.js.map"; "index.d.ts"];
     dist_exists := fun _ f => String.eqb f "index.js" || String.eqb f "index.js.map";
     dist_json := fun _ _ =>
       Some (VObject [("version", VNumber 3); ("sources", VArray [VString "a.ts"])]);
     dist_text := fun _ _ => "export const a = 1; //# sourceMappingURL=index.js.map";
     dist_size := fun _ _ => 2048%N;
     dist_gzip_size := fun _ _ => 1024%N;
     es_check := fun _ => Some 0%Z;
     eslint_dist := (Some 0%Z, "");
     publint := fun _ => (Some 0%Z, Some "");
     grep_require := fun _ => (Some 1%Z, "");
     npm_pack := fun pkg listing =>
       (Some 0%Z, listing ++ [("otel-" ++ pkg ++ "-1.0.0.tgz")%string]);
     npm_install := install_if_present;
     esm_import := fun _ _ => Namespace [("a", VNumber 1)] |}.

Definition empty_fs : FS := {| pkgdirs := ∅; sandboxes := ∅; next_tmp := 0 |}.

Definition update_has_dist (w : World) (d : string -> bool) : World :=
  {| packages_dir := packages_dir w; has_dist := d;
     package_json := package_json w; dist_dir := dist_dir w;
     dist_exists := dist_exists w; dist_json := dist_json w;
     dist_text := dist_text w; dist_size := dist_size w;
     dist_gzip_size := dist_gzip_size w; es_check := es_check w;
     eslint_dist := eslint_dist w; publint := publint w;
     grep_require := grep_require w; npm_pack := npm_pack w;
     npm_install := npm_install w; esm_import := esm_import w |}.

(** The same workspace before anything was built. *)
Definition unbuilt_world : World := update_has_dist demo_world (fun _ => false).

Definition update_esm_import (w : World) (i : Sandbox -> string -> LoadResult) : World :=
  {| packages_dir := packages_dir w; has_dist := has_dist w;
     package_json := package_json w; dist_dir := dist_dir w;
     dist_exists := dist_exists w; dist_json := dist_json w;
     dist_text := dist_text w; dist_size := dist_size w;
     dist_gzip_size := dist_gzip_size w; es_check := es_check w;
     eslint_dist := eslint_dist w; publint := publint w;
     grep_require := grep_require w; npm_pack := npm_pack w;
     npm_install := npm_install w; esm_import := i |}.

(** A workspace in which no entry point exports anything. *)
Definition exportless_world : World :=
  update_esm_import demo_world (fun _ _ => Namespace []).

Definition update_publint (w : World) (p : string -> option Z * option string)
  : World :=
  {| packages_dir := packages_dir w; has_dist := has_dist w;
     package_json := package_json w; dist_dir := dist_dir w;
     dist_exists := dist_exists w; dist_json := dist_json w;
     dist_text := dist_text w; dist_size := dist_size w;
     dist_gzip_size := dist_gzip_size w; es_check := es_check w;
     eslint_dist := eslint_dist w; publint := p;
     grep_require := grep_require w; npm_pack := npm_pack w;
     npm_install := npm_install w; esm_import := esm_import w |}.

(** A workspace in which the package metadata linter fails on every package. *)
Definition publint_failing_world : World :=
  update_publint demo_world (fun _ => (Some 1%Z, Some "pkg.exports is missing")).

(** A workspace in which the syntax checker fails on [core] and the
    baseline linter fails. *)
Definition checkers_failing_world : World :=
  {| packages_dir := packages_dir demo_world; has_dist := has_dist demo_world;
     package_json := package_json demo_world; dist_dir := dist_dir demo_world;
     dist_exists := dist_exists demo_world; dist_json := dist_json demo_world;
     dist_text := dist_text demo_world; dist_size := dist_size demo_world;
     dist_gzip_size := dist_gzip_size demo_world;
     es_check := fun pkg => if String.eqb pkg "core" then Some 1%Z else Some 0%Z;
     eslint_dist := (Some 1%Z, "");
     publint := publint demo_world;
     grep_require := grep_require demo_world; npm_pack := npm_pack demo_world;
     npm_install := npm_install demo_world; esm_import := esm_import demo_world |}.

(** A workspace of two packages: [app] depends on the package in the
    directory [package], whose archive [npm pack] writes somewhere else. *)
Definition collision_world : World :=
  {| packages_dir := ["app"; "package"];
     has_dist := fun _ => true;
     package_json := fun pkg =>
       if String.eqb pkg "app" then Some (manifest "app" [("lib", "^1.0.0")] false)
       else if String.eqb pkg "package" then Some (manifest "lib" [] false)
       else None;
     dist_dir := fun _ => ["index.js"; "index.js.map"];
     dist_exists := fun _ f => String.eqb f "index.js" || String.eqb f "index.js.map";
     dist_json := fun _ _ => Some (VObject [("sources", VArray [VString "a.ts"])]);
     dist_text := fun _ _ => "export const a = 1; //# sourceMappingURL=index.js.map";
     dist_size := fun _ _ => 2048%N;
     dist_gzip_size := fun _ _ => 1024%N;
     es_check := fun _ => Some 0%Z;
     eslint_dist := (Some 0%Z, "");
     publint := fun _ => (Some 0%Z, Some "");
     grep_require := fun _ => (Some 1%Z, "");
     npm_pack := fun pkg listing =>
       if String.eqb pkg "app" then (Some 0%Z, listing ++ ["app-1.0.0.tgz"])
       else (Some 0%Z, listing);
     npm_install := install_if_present;
     esm_import := fun _ _ => Namespace [("a", VNumber 1)] |}.

(** A workspace whose compiled files have no source map and do not refer
    to one. *)
Definition mapless_world : World :=
  {| packages_dir := packages_dir demo_world; has_dist := has_dist demo_world;
     package_json := package_json demo_world;
     dist_dir := fun _ => ["index.js"; "index.d.ts"];
     dist_exists := fun _ f => String.eqb f "index.js";
     dist_json := fun _ _ => None;
     dist_text := fun _ _ => "export const a = 1;";
     dist_size := dist_size demo_world;
     dist_gzip_size := dist_gzip_size demo_world;
     es_check := es_check demo_world; eslint_dist := eslint_dist demo_world;
     publint := publint demo_world;
     grep_require := grep_require demo_world; npm_pack := npm_pack demo_world;
     npm_install := npm_install demo_world; esm_import := esm_import demo_world |}.

(** A workspace whose compiled files are [a.js], without a source map,
    [b.js], whose source map has an empty list of sources, and [c.js]. *)
Definition bad_map_world : World :=
  {| packages_dir := packages_dir demo_world; has_dist := has_dist demo_world;
     package_json := package_json demo_world;
     dist_dir := fun _ => ["a.js"; "b.js"; "b.js.map"; "c.js"; "c.js.map"];
     dist_exists := fun _ f => negb (String.eqb f "a.js.map");
     dist_json := fun _ f =>
       if String.eqb f "b.js.map" then Some (VObject [("sources", VArray [])])
       else if String.eqb f "c.js.map" then Some (VObject [("sources", VArray [VString "c.ts"])])
       else None;
     dist_text := fun _ _ => "export const a = 1;";
     dist_size := dist_size demo_world;
     dist_gzip_size := dist_gzip_size demo_world;
     es_check := es_check demo_world; eslint_dist := eslint_dist demo_world;
     publint := publint demo_world;
     grep_require := grep_require demo_world; npm_pack := npm_pack demo_world;
     npm_install := npm_install demo_world; esm_import := esm_import demo_world |}.

(** * Vocabulary and worlds of the further properties *)

(** The child processes among the events. *)
Definition is_spawn (e : Event) : bool :=
  match e with
  | Spawn _ _ => true
  | _ => false
  end.

Definition spawns (t : list Event) : list Event := List.filter is_spawn t.

(** The sum of a size over files. *)
Definition total (size : string -> N) (l : list string) : N :=
  foldr (fun f acc => (size f + acc)%N) 0%N l.

(** The line of the bundle size stage for a package: the sizes of the
    [.js] files of its [dist], in bytes, and yellow above 50 KB of gzip. *)
Definition size_line (w : World) (pkg : string) : Event :=
  let totalRaw := total (dist_size w pkg) (jsFilesOf w pkg) in
  let totalGzip := total (dist_gzip_size w pkg) (jsFilesOf w pkg) in
  LogSize pkg totalRaw totalGzip (if (51200 <? totalGzip)%N then yellow else green).

(** The runs of the package metadata linter among the events. *)
Definition is_publint (e : Event) : bool :=
  match e with
  | Spawn (Publint _) _ => true
  | _ => false
  end.

(** The line the source map validator logs for a list of files: that of
    the first file that fails, if any. *)
Fixpoint first_failure (w : World) (pkgName : string) (l : list string) : option string :=
  match l with
  | [] => None
  | jsFile :: rest =>
      match sourcemap_failure w pkgName jsFile with
      | Some message => Some message
      | None => first_failure w pkgName rest
      end
  end.

(** The section titles and lines that come after the package exports
    stage, and the child processes of the module integrity stage. *)
Definition after_exports (e : Event) : bool :=
  match e with
  | LogSection title =>
      String.eqb title "4. Bundle Size" || String.eqb title "5. Module Integrity"
      || String.eqb title "Validation Summary"
  | LogSize _ _ _ _ => true
  | Spawn (GrepRequire _) _ => true
  | _ => false
  end.

(** The computation changes no temporary directory but [tempDir], and
    makes none. *)
Definition touches_only (tempDir : nat) {A} (m : M A) : Prop :=
  forall s,
    next_tmp (final (m s)) = next_tmp s /\
    forall d, d <> tempDir -> sandboxes (final (m s)) !! d = sandboxes s !! d.

(** No temporary directory has a number that [mkdtemp] has yet to give. *)
Definition fresh (s : FS) : Prop :=
  forall d, next_tmp s <= d -> sandboxes s !! d = None.

(** The computation leaves the temporary directories as they were. *)
Definition tidy {A} (m : M A) : Prop :=
  forall s, fresh s ->
    fresh (final (m s)) /\ sandboxes (final (m s)) = sandboxes s.

(** The step of the import test an event belongs to: packing and moving
    the archives, writing the manifest of the install root, installing the
    dependencies, installing the package under test, the import check. *)
Definition phase (e : Event) : option nat :=
  match e with
  | Spawn (NpmPack _) _ | Rename _ _ _ _ => Some 0
  | WriteFile _ _ _ => Some 1
  | Spawn (NpmInstallDep _ _) _ => Some 2
  | Spawn (NpmInstallMain _) _ => Some 3
  | Spawn (NodeImport _ _) _ => Some 4
  | _ => None
  end.

Definition in_phase (n : nat) (e : Event) : bool :=
  match phase e with
  | Some a => (a =? n)%nat
  | None => true
  end.

(** The steps come in the order of their phases. *)
Definition phases_ordered (t : list Event) : Prop :=
  forall i j e1 e2 a b,
    i <= j -> t !! i = Some e1 -> t !! j = Some e2 ->
    phase e1 = Some a -> phase e2 = Some b -> a <= b.

Definition phases_from (n : nat) (t : list Event) : Prop :=
  Forall (fun e => forall a, phase e = Some a -> n <= a) t.

(** A child process that did not exit with status [0]. *)
Definition failed_spawn (e : Event) : bool :=
  match e with
  | Spawn _ status => negb (succeeded status)
  | _ => false
  end.

(** No child process is spawned after one that failed. *)
Definition stops_at_failure (t : list Event) : Prop :=
  forall i j e1 e2,
    i < j -> t !! i = Some e1 -> t !! j = Some e2 ->
    failed_spawn e1 = true -> is_spawn e2 = false.

Definition fails_fast {A} (m : M A) : Prop :=
  forall s,
    (forall a, outcome (m s) = Ret a ->
               Forall (fun e => failed_spawn e = false) (trace (m s))) /\
    stops_at_failure (trace (m s)).

(** The computation leaves the listings of the package directories as
    they were. *)
Definition keeps_listings {A} (m : M A) : Prop :=
  forall s, pkgdirs (final (m s)) = pkgdirs s.

(** A workspace with a directory [old] that still has its [dist] and no
    longer has a manifest. *)
Definition stale_world : World :=
  {| packages_dir := ["api"; "old"];
     has_dist := fun _ => true;
     package_json := fun pkg =>
       if String.eqb pkg "api" then Some (manifest "@otel/api" [] false) else None;
     dist_dir := dist_dir demo_world;
     dist_exists := dist_exists demo_world; dist_json := dist_json demo_world;
     dist_text := dist_text demo_world; dist_size := dist_size demo_world;
     dist_gzip_size := dist_gzip_size demo_world;
     es_check := es_check demo_world; eslint_dist := eslint_dist demo_world;
     publint := publint demo_world;
     grep_require := grep_require demo_world; npm_pack := npm_pack demo_world;
     npm_install := npm_install demo_world; esm_import := esm_import demo_world |}.

(** A workspace in which every install fails. *)
Definition install_failing_world : World :=
  {| packages_dir := packages_dir demo_world; has_dist := has_dist demo_world;
     package_json := package_json demo_world; dist_dir := dist_dir demo_world;
     dist_exists := dist_exists demo_world; dist_json := dist_json demo_world;
     dist_text := dist_text demo_world; dist_size := dist_size demo_world;
     dist_gzip_size := dist_gzip_size demo_world;
     es_check := es_check demo_world; eslint_dist := eslint_dist demo_world;
     publint := publint demo_world;
     grep_require := grep_require demo_world; npm_pack := npm_pack demo_world;
     npm_install := fun _ _ => Some 1%Z; esm_import := esm_import demo_world |}.

(** * Properties *)

(** ** Runs of the monad *)

Lemma bind_run {A B} (m : M A) (k : A -> M B) s :
  bind m k s =
  match outcome (m s) with
  | Ret a => MkRun (outcome (k a (final (m s)))) (final (k a (final (m s))))
                   (trace (m s) ++ trace (k a (final (m s))))
  | Throw e => MkRun (Throw e) (final (m s)) (trace (m s))
  | Exit c => MkRun (Exit c) (final (m s)) (trace (m s))
  end.
Proof. reflexivity. Qed.

Lemma bind_ret_run {A B} (m : M A) (k : A -> M B) s a :
  outcome (m s) = Ret a ->
  bind m k s = MkRun (outcome (k a (final (m s)))) (final (k a (final (m s))))
                     (trace (m s) ++ trace (k a (final (m s)))).
Proof. intros H. rewrite bind_run, H. reflexivity. Qed.

Lemma bind_returned {A B} (m : M A) (k : A -> M B) (s : FS) (b : B) :
  outcome (bind m k s) = Ret b ->
  exists a, outcome (m s) = Ret a /\
            outcome (k a (final (m s))) = Ret b /\
            trace (bind m k s) = trace (m s) ++ trace (k a (final (m s))).
Proof.
  rewrite bind_run. destruct (outcome (m s)) as [a|e|c]; cbn [outcome trace];
    try discriminate.
  intros H. exists a. auto.
Qed.

Lemma trace_then_ret {A B} (m : M A) (b : B) (s : FS) :
  trace ((m ;; ret b) s) = trace (m s).
Proof.
  rewrite bind_run. destruct (outcome (m s)); cbn [trace ret]; auto using app_nil_r.
Qed.

Ltac run_steps :=
  repeat (rewrite bind_run;
          cbn [get_fs put_fs emit ret throw lift outcome final trace app]).

Lemma returns_no_exit {A} (m : M A) : returns m -> no_exit m.
Proof. intros H s c E. destruct (H s) as [a Ha]. congruence. Qed.

Lemma returns_ret {A} (a : A) : returns (ret a).
Proof. intros s. eexists. reflexivity. Qed.

Lemma returns_emit e : returns (emit e).
Proof. intros s. eexists. reflexivity. Qed.

Lemma returns_get_fs : returns get_fs.
Proof. intros s. eexists. reflexivity. Qed.

Lemma returns_put_fs s' : returns (put_fs s').
Proof. intros s. eexists. reflexivity. Qed.

Lemma returns_bind {A B} (m : M A) (k : A -> M B) :
  returns m -> (forall a, returns (k a)) -> returns (bind m k).
Proof.
  intros Hm Hk s. destruct (Hm s) as [a Ha].
  rewrite (bind_ret_run _ _ _ _ Ha). apply Hk.
Qed.

Lemma returns_for_of {A} (xs : list A) (body : A -> M unit) :
  (forall x, x ∈ xs -> returns (body x)) -> returns (for_of xs body).
Proof.
  induction xs as [|x xs IH]; intros H; simpl.
  - apply returns_ret.
  - apply returns_bind.
    + apply H. left.
    + intros _. apply IH. intros y Hy. apply H. right. exact Hy.
Qed.

Lemma returns_for_fold {A S} (xs : list A) (body : A -> S -> M S) :
  (forall x acc, x ∈ xs -> returns (body x acc)) ->
  forall acc, returns (for_fold xs acc body).
Proof.
  induction xs as [|x xs IH]; intros H acc; simpl.
  - apply returns_ret.
  - apply returns_bind.
    + apply H. left.
    + intros acc'. apply IH. intros y a Hy. apply H. right. exact Hy.
Qed.

Lemma returns_for_return {A R} (xs : list A) (body : A -> M (option R)) :
  (forall x, returns (body x)) -> returns (for_return xs body).
Proof.
  intros H. induction xs as [|x xs IH]; simpl.
  - apply returns_ret.
  - apply returns_bind; [apply H|]. intros [v|]; [apply returns_ret | exact IH].
Qed.

Lemma no_exit_ret {A} (a : A) : no_exit (ret a).
Proof. intros s c. discriminate. Qed.

Lemma no_exit_throw {A} e : no_exit (@throw A e).
Proof. intros s c. discriminate. Qed.

Lemma no_exit_bind {A B} (m : M A) (k : A -> M B) :
  no_exit m -> (forall a, no_exit (k a)) -> no_exit (bind m k).
Proof.
  intros Hm Hk s c. rewrite bind_run.
  destruct (outcome (m s)) as [a|e|c'] eqn:E; simpl.
  - apply Hk.
  - discriminate.
  - exfalso. exact (Hm s c' E).
Qed.

Lemma no_exit_for_of {A} (xs : list A) (body : A -> M unit) :
  (forall x, no_exit (body x)) -> no_exit (for_of xs body).
Proof.
  intros H. induction xs as [|x xs IH]; simpl.
  - apply no_exit_ret.
  - apply no_exit_bind; [apply H | intros _; exact IH].
Qed.

Lemma no_exit_lift {A} (o : Outcome A) :
  (forall c, o <> Exit c) -> no_exit (lift o).
Proof. intros H s c. apply H. Qed.

Lemma emits_ret P {A} (a : A) : emits P (ret a).
Proof. intros s. constructor. Qed.

Lemma emits_throw P {A} e : emits P (@throw A e).
Proof. intros s. constructor. Qed.

Lemma emits_lift P {A} (o : Outcome A) : emits P (lift o).
Proof. intros s. constructor. Qed.

Lemma emits_get_fs P : emits P get_fs.
Proof. intros s. constructor. Qed.

Lemma emits_put_fs P s' : emits P (put_fs s').
Proof. intros s. constructor. Qed.

Lemma emits_emit (P : Event -> Prop) e : P e -> emits P (emit e).
Proof. intros H s. repeat constructor. exact H. Qed.

Lemma emits_bind P {A B} (m : M A) (k : A -> M B) :
  emits P m -> (forall a, emits P (k a)) -> emits P (bind m k).
Proof.
  intros Hm Hk s. rewrite bind_run.
  destruct (outcome (m s)) as [a|e|c]; simpl; try apply Hm.
  apply Forall_app. split; [apply Hm | apply Hk].
Qed.

Lemma emits_for_of P {A} (xs : list A) (body : A -> M unit) :
  (forall x, emits P (body x)) -> emits P (for_of xs body).
Proof.
  intros H. induction xs as [|x xs IH]; simpl.
  - apply emits_ret.
  - apply emits_bind; [apply H | intros _; exact IH].
Qed.

(** ** [try], [catch] and [finally] *)

Lemma returns_try_catch_finally {A} (body : M A) handler finalizer :
  no_exit body -> (forall e, returns (handler e)) -> returns finalizer ->
  returns (try_catch_finally body handler finalizer).
Proof.
  intros Hb Hh Hf s. unfold try_catch_finally.
  destruct (outcome (body s)) as [a|e|c] eqn:E.
  - rewrite E. destruct (Hf (final (body s))) as [u Hu]. rewrite Hu. eauto.
  - destruct (Hh e (final (body s))) as [a Ha]. simpl. rewrite Ha.
    destruct (Hf (final (handler e (final (body s))))) as [u Hu]. rewrite Hu. eauto.
  - exfalso. exact (Hb s c E).
Qed.

Lemma returns_try_catch {A} (body : M A) handler :
  no_exit body -> (forall e, returns (handler e)) -> returns (try_catch body handler).
Proof. intros Hb Hh. apply returns_try_catch_finally; auto using returns_ret. Qed.

Lemma emits_try_catch_finally P {A} (body : M A) handler finalizer :
  emits P body -> (forall e, emits P (handler e)) -> emits P finalizer ->
  emits P (try_catch_finally body handler finalizer).
Proof.
  intros Hb Hh Hf s. unfold try_catch_finally.
  assert (Forall P (trace
    match outcome (body s) with
    | Throw e => MkRun (outcome (handler e (final (body s))))
                       (final (handler e (final (body s))))
                       (trace (body s) ++ trace (handler e (final (body s))))
    | _ => body s
    end)) as H1.
  { destruct (outcome (body s)); simpl; try apply Hb.
    apply Forall_app; split; [apply Hb | apply Hh]. }
  revert H1.
  generalize (match outcome (body s) with
    | Throw e => MkRun (outcome (handler e (final (body s))))
                       (final (handler e (final (body s))))
                       (trace (body s) ++ trace (handler e (final (body s))))
    | _ => body s
    end).
  intros r1 H1. pose proof (Hf (final r1)) as H2.
  destruct (outcome r1); [| |exact H1];
    destruct (outcome (finalizer (final r1))); simpl;
    apply Forall_app; split; assumption.
Qed.

Lemma emits_try_catch P {A} (body : M A) handler :
  emits P body -> (forall e, emits P (handler e)) -> emits P (try_catch body handler).
Proof. intros Hb Hh. apply emits_try_catch_finally; auto using emits_ret. Qed.

Ltac step_emits :=
  match goal with
  | |- emits _ (bind _ _) => apply emits_bind; [|intros ?]
  | |- emits _ (ret _) => apply emits_ret
  | |- emits _ (throw _) => apply emits_throw
  | |- emits _ (lift _) => apply emits_lift
  | |- emits _ get_fs => apply emits_get_fs
  | |- emits _ (put_fs _) => apply emits_put_fs
  | |- emits _ (emit _) => apply emits_emit
  | |- emits _ (for_of _ _) => apply emits_for_of; intros ?
  | |- emits _ (try_catch _ _) => apply emits_try_catch; [|intros ?]
  | |- emits _ (if ?b then _ else _) => destruct b
  | |- emits _ (match ?x with _ => _ end) => destruct x
  end.

Ltac step_no_exit :=
  match goal with
  | |- no_exit (bind _ _) => apply no_exit_bind; [|intros ?]
  | |- no_exit (ret _) => apply no_exit_ret
  | |- no_exit (throw _) => apply no_exit_throw
  | |- no_exit get_fs => apply returns_no_exit, returns_get_fs
  | |- no_exit (put_fs _) => apply returns_no_exit, returns_put_fs
  | |- no_exit (emit _) => apply returns_no_exit, returns_emit
  | |- no_exit (for_of _ _) => apply no_exit_for_of; intros ?
  | |- no_exit (if ?b then _ else _) => destruct b
  | |- no_exit (match ?x with _ => _ end) => destruct x
  end.

Ltac step_returns :=
  match goal with
  | |- returns (bind _ _) => apply returns_bind; [|intros ?]
  | |- returns (ret _) => apply returns_ret
  | |- returns get_fs => apply returns_get_fs
  | |- returns (put_fs _) => apply returns_put_fs
  | |- returns (emit _) => apply returns_emit
  | |- returns (for_of _ _) => apply returns_for_of; intros ? ?
  | |- returns (for_fold _ _ _) => apply returns_for_fold; intros ? ? ?
  | |- returns (for_return _ _) => apply returns_for_return; intros ?
  | |- returns (try_catch _ _) => apply returns_try_catch; [|intros ?]
  | |- returns (if ?b then _ else _) => destruct b
  | |- returns (match ?x with _ => _ end) => destruct x
  end.

Ltac unfold_steps :=
  unfold packWorkspaceDependency, packMainPackage, testEsmImport, npmPack,
    npmInstall, renameSync, writeFileSync, put_sandbox, sandbox_of, execSync,
    spawnSync, log, logSection.

(** ** Steps of the script *)

Lemma mkdtempSync_run (s : FS) :
  mkdtempSync s = MkRun (Ret (next_tmp s)) (after_mkdtemp s) [Mkdtemp (next_tmp s)].
Proof. reflexivity. Qed.

Lemma rmSync_run (tempDir : nat) (s : FS) :
  rmSync tempDir s = MkRun (Ret tt) (after_rm tempDir s) [RmSync tempDir].
Proof. reflexivity. Qed.

Lemma npmPack_run (w : World) (pkg : string) (s : FS) :
  npmPack w pkg s =
  let status := (npm_pack w pkg (readdir s pkg)).1 in
  if succeeded status
  then MkRun (Ret tt) (after_pack w pkg s) [Spawn (NpmPack pkg) status]
  else MkRun (Throw ("Command failed: " ++ command_line (NpmPack pkg)))
             (after_pack w pkg s) [Spawn (NpmPack pkg) status].
Proof.
  unfold npmPack, execSync. rewrite !bind_run.
  cbn [get_fs put_fs emit outcome final trace app]. cbv zeta.
  destruct (succeeded _); reflexivity.
Qed.

Lemma readdir_after_pack (w : World) (pkg : string) (s : FS) :
  readdir (after_pack w pkg s) pkg = (npm_pack w pkg (readdir s pkg)).2.
Proof. unfold readdir at 1, after_pack. cbn [pkgdirs]. rewrite lookup_insert_eq. reflexivity. Qed.

Lemma npmInstall_run (w : World) tempDir c archive (s : FS) :
  npmInstall w tempDir c archive s =
  match sandboxes s !! tempDir with
  | None => MkRun (Throw "ENOENT: no such file or directory") s []
  | Some sb =>
      let status := npm_install w sb archive in
      if succeeded status
      then MkRun (Ret tt) (with_sandbox tempDir (add_installed archive sb) s) [Spawn c status]
      else MkRun (Throw ("Command failed: " ++ command_line c)) s [Spawn c status]
  end.
Proof.
  unfold npmInstall, sandbox_of, put_sandbox, execSync.
  rewrite !bind_run. cbn [get_fs outcome final trace].
  destruct (sandboxes s !! tempDir) as [sb|] eqn:E; [|reflexivity].
  cbn [ret outcome final trace app].
  destruct (succeeded (npm_install w sb archive)) eqn:Es.
  - rewrite !bind_run. cbn [get_fs put_fs emit ret outcome final trace app]. reflexivity.
  - rewrite !bind_run.  cbn [get_fs put_fs emit ret outcome final trace app]. reflexivity.
Qed.

Lemma testEsmImport_run (w : World) tempDir pkgJson (s : FS) :
  testEsmImport w tempDir pkgJson s =
  match sandboxes s !! tempDir with
  | None => MkRun (Throw "ENOENT: no such file or directory") s []
  | Some sb =>
      let n := template (name pkgJson) in
      let status := import_check (esm_import w sb n) in
      if (status =? 0)%Z
      then MkRun (Ret tt) s [Spawn (NodeImport tempDir n) (Some status)]
      else MkRun (Throw ("Command failed: " ++ command_line (NodeImport tempDir n))) s
                 [Spawn (NodeImport tempDir n) (Some status)]
  end.
Proof.
  unfold testEsmImport, sandbox_of, execSync.
  rewrite !bind_run. cbn [get_fs outcome final trace].
  destruct (sandboxes s !! tempDir) as [sb|] eqn:E; [|reflexivity].
  cbn [ret outcome final trace app].
  rewrite !bind_run. cbn [emit outcome final trace app].
  destruct (import_check _) eqn:Es; reflexivity.
Qed.

Lemma obind_no_exit {A B} (o : Outcome A) (k : A -> Outcome B) :
  (forall c, o <> Exit c) -> (forall a c, k a <> Exit c) -> forall c, obind o k <> Exit c.
Proof.
  intros Ho Hk c. destruct o as [a|e|c']; simpl; [apply Hk | discriminate |].
  exfalso. exact (Ho c' eq_refl).
Qed.

Lemma getPackageJson_no_exit (w : World) (pkg : string) c :
  getPackageJson w pkg <> Exit c.
Proof. unfold getPackageJson. destruct (package_json w pkg); discriminate. Qed.

Lemma omap_no_exit {A B} (f : A -> Outcome B) (l : list A) :
  (forall a c, f a <> Exit c) -> forall c, omap f l <> Exit c.
Proof.
  intros H. induction l as [|a l IH]; simpl; [discriminate|].
  apply obind_no_exit; [apply H|]. intros b. apply obind_no_exit; [exact IH|]. discriminate.
Qed.

Lemma ofilter_no_exit {A} (f : A -> Outcome bool) (l : list A) :
  (forall a c, f a <> Exit c) -> forall c, ofilter f l <> Exit c.
Proof.
  intros H. induction l as [|a l IH]; simpl; [discriminate|].
  apply obind_no_exit; [apply H|]. intros b. apply obind_no_exit; [exact IH|]. discriminate.
Qed.

Lemma getWorkspaceDependencies_no_exit (w : World) (pkgJson : PackageJson) c :
  getWorkspaceDependencies w pkgJson <> Exit c.
Proof.
  unfold getWorkspaceDependencies. apply obind_no_exit.
  - apply omap_no_exit. intros pkg. apply obind_no_exit;
      [apply getPackageJson_no_exit | discriminate].
  - intros names. apply ofilter_no_exit. intros pkg.
    apply obind_no_exit; [apply getPackageJson_no_exit|]. intros j.
    destruct (bool_decide _); [|discriminate].
    apply obind_no_exit; [apply getPackageJson_no_exit | discriminate].
Qed.

Lemma safeNameOf_no_exit (n : option string) c : safeNameOf n <> Exit c.
Proof. destruct n; discriminate. Qed.

Lemma testPackageImports_try_no_exit (w : World) tempDir pkgName pkgJson :
  no_exit (testPackageImports_try w tempDir pkgName pkgJson).
Proof.
  unfold testPackageImports_try. unfold_steps.
  repeat first
    [ step_no_exit
    | apply no_exit_lift; first [ apply getWorkspaceDependencies_no_exit
                                | apply getPackageJson_no_exit
                                | apply safeNameOf_no_exit ] ].
Qed.

Lemma testPackageImports_try_lifecycle (w : World) tempDir pkgName pkgJson :
  emits (fun e => lifecycle e = false)
        (testPackageImports_try w tempDir pkgName pkgJson).
Proof.
  unfold testPackageImports_try. unfold_steps.
  repeat first [ step_emits | reflexivity ].
Qed.

(** The run of the import test of a package that is not private: the
    [try] block runs in a fresh temporary directory, a thrown exception is
    logged and turned into [false], and the directory is removed. *)
Lemma testPackageImports_run (w : World) pkgName pkgJson (s : FS) :
  package_json w pkgName = Some pkgJson ->
  private pkgJson = false ->
  let d := next_tmp s in
  let r := testPackageImports_try w d pkgName pkgJson (after_mkdtemp s) in
  testPackageImports w pkgName s =
  match outcome r with
  | Ret b => MkRun (Ret b) (after_rm d (final r)) (Mkdtemp d :: trace r ++ [RmSync d])
  | Throw e =>
      MkRun (Ret false) (after_rm d (final r))
            (Mkdtemp d :: trace r ++
               [Log [red] ("    ✗ Import test failed: " ++ e); RmSync d])
  | Exit c => MkRun (Exit c) (final r) (Mkdtemp d :: trace r)
  end.
Proof.
  intros Hj Hp d r. unfold testPackageImports, getPackageJson. rewrite Hj.
  unfold lift. rewrite bind_run. cbn [outcome final trace]. rewrite Hp.
  rewrite bind_run, mkdtempSync_run. cbn [outcome final trace].
  unfold try_catch_finally. fold d. fold r.
  destruct (outcome r) as [b|e|c] eqn:E.
  - rewrite E. rewrite rmSync_run. reflexivity.
  - rewrite bind_run. cbn [outcome final trace log emit ret]. rewrite rmSync_run.
    cbn [outcome final trace]. rewrite <- app_assoc. reflexivity.
  - rewrite E. cbn [outcome final trace app]. rewrite E. reflexivity.
Qed.

(** ** The guard of [main] and the empty workspace *)

(** C10. When no package has a [dist] directory, the syntax compliance
    stage prints its section title and a warning and returns [true]; the
    exit status [1] of the run is that of the guard of [main], which ends
    the process after its own two lines, before any stage has run. *)
Theorem C10_no_packages (w : World) (s : FS) :
  getPackagesWithDist w = [] ->
  checkSyntaxCompliance w s =
    MkRun (Ret true) s
          [LogSection "1. Syntax Compliance (es-check)";
           Log [yellow] "  ⚠ No packages with dist/ found"]
  /\ main w s =
    MkRun (Exit 1) s
          [LogSection "OpenTelemetry Browser Validation";
           Log [red] "✗ No packages with dist/ found. Run npm run build first."].
Proof.
  intros H. unfold checkSyntaxCompliance, main. rewrite H. split; reflexivity.
Qed.

Lemma C10_no_packages_witness :
  getPackagesWithDist unbuilt_world = [] /\
  outcome (checkSyntaxCompliance unbuilt_world empty_fs) = Ret true /\
  outcome (main unbuilt_world empty_fs) = Exit 1.
Proof.
  split; [reflexivity|].
  destruct (C10_no_packages unbuilt_world empty_fs) as [H1 H2]; [reflexivity|].
  rewrite H1, H2. split; reflexivity.
Defined.

(** ** Private packages *)

(** C5. For a package whose manifest marks it private, the import test
    returns [true]; it only logs that the test is skipped: the file system
    is left as it was (no temporary directory, no archive) and no child
    process is spawned. *)
Theorem C5_private_skipped (w : World) (pkgName : string) (pkgJson : PackageJson) (s : FS) :
  package_json w pkgName = Some pkgJson ->
  private pkgJson = true ->
  testPackageImports w pkgName s =
    MkRun (Ret true) s [Log [dim] "    ⊘ Skipped (private package)"].
Proof.
  intros Hj Hp. unfold testPackageImports, getPackageJson.
  rewrite Hj. unfold lift. rewrite bind_run. simpl. rewrite Hp. reflexivity.
Qed.

Lemma C5_private_skipped_witness :
  private (manifest "@otel/tools" [("@otel/docs", "^1.0.0")] true) = true /\
  testPackageImports demo_world "tools" empty_fs =
    MkRun (Ret true) empty_fs [Log [dim] "    ⊘ Skipped (private package)"].
Proof.
  split; [reflexivity|].
  apply (C5_private_skipped demo_world "tools"
           (manifest "@otel/tools" [("@otel/docs", "^1.0.0")] true)); reflexivity.
Defined.

(** ** The workspace dependencies of a manifest *)

Lemma readable_spec (w : World) :
  readable w = true <->
  forall pkg, pkg ∈ getPackagesWithDist w -> is_Some (package_json w pkg).
Proof.
  unfold readable. rewrite forallb_forall. split.
  - intros H pkg Hin. apply list_elem_of_In, H in Hin.
    apply bool_decide_eq_true in Hin. exact Hin.
  - intros H pkg Hin. apply bool_decide_eq_true, H, list_elem_of_In, Hin.
Qed.

Lemma getPackagesWithDist_spec (w : World) (pkg : string) :
  pkg ∈ getPackagesWithDist w <-> pkg ∈ packages_dir w /\ has_dist w pkg = true.
Proof.
  unfold getPackagesWithDist. rewrite !list_elem_of_In. apply filter_In.
Qed.

Lemma Object_keys_spec (o : gmap string string) (k : string) :
  k ∈ Object_keys o <-> is_Some (o !! k).
Proof.
  unfold Object_keys. rewrite list_elem_of_fmap. split.
  - intros [[k' v] [-> Hin]]. apply elem_of_map_to_list in Hin. simpl. eauto.
  - intros [v Hv]. exists (k, v). split; [reflexivity|].
    apply elem_of_map_to_list. exact Hv.
Qed.

Lemma keys_include_spec (pkgJson : PackageJson) (x : option string) :
  keys_include (allDepsOf pkgJson) x = true <->
  exists n, x = Some n /\
    (is_Some (dependencies pkgJson !! n) \/ is_Some (peerDependencies pkgJson !! n)).
Proof.
  destruct x as [n|]; simpl.
  - rewrite bool_decide_eq_true, Object_keys_spec. unfold allDepsOf.
    rewrite lookup_union_is_Some. split.
    + intros H. exists n. tauto.
    + intros [n' [[= <-] H]]. tauto.
  - split; [discriminate|]. intros [n [? _]]. discriminate.
Qed.

Lemma omap_names (w : World) (l : list string) :
  (forall pkg, pkg ∈ l -> is_Some (package_json w pkg)) ->
  omap (fun pkg => obind (getPackageJson w pkg) (fun j => Ret (name j))) l
  = Ret (map (declared_name w) l).
Proof.
  induction l as [|pkg l IH]; intros H; simpl; [reflexivity|].
  destruct (H pkg) as [j Hj]; [left|].
  unfold getPackageJson at 1, declared_name at 1. rewrite Hj. simpl.
  rewrite IH; [reflexivity|]. intros p Hp. apply H. right. exact Hp.
Qed.

Lemma ofilter_names (w : World) (allDeps : gmap string string)
    (names : list (option string)) (l : list string) :
  (forall pkg, pkg ∈ l -> is_Some (package_json w pkg)) ->
  (forall pkg, pkg ∈ l -> declared_name w pkg ∈ names) ->
  ofilter (fun pkg =>
             obind (getPackageJson w pkg) (fun j =>
             if bool_decide (name j ∈ names) then
               obind (getPackageJson w pkg) (fun j' => Ret (keys_include allDeps (name j')))
             else Ret false)) l
  = Ret (List.filter (fun pkg => keys_include allDeps (declared_name w pkg)) l).
Proof.
  induction l as [|pkg l IH]; intros H Hn; simpl; [reflexivity|].
  destruct (H pkg) as [j Hj]; [left|].
  pose proof (Hn pkg ltac:(left)) as Hin.
  unfold getPackageJson at 1 2, declared_name at 1. unfold declared_name in Hin.
  rewrite Hj in *. simpl in *.
  rewrite (bool_decide_eq_true_2 _ Hin). simpl.
  rewrite IH; [reflexivity| |]; intros p Hp; [apply H | apply Hn]; right; exact Hp.
Qed.

Lemma getWorkspaceDependencies_readable (w : World) (pkgJson : PackageJson) :
  readable w = true ->
  getWorkspaceDependencies w pkgJson =
  Ret (List.filter (fun pkg => keys_include (allDepsOf pkgJson) (declared_name w pkg))
                   (getPackagesWithDist w)).
Proof.
  intros Hr. pose proof (proj1 (readable_spec w) Hr) as Hr'.
  clear Hr. rename Hr' into Hr. unfold getWorkspaceDependencies.
  rewrite (omap_names w _ Hr). simpl.
  apply ofilter_names; [exact Hr|].
  intros pkg Hin. apply list_elem_of_fmap. exists pkg. split; [reflexivity | exact Hin].
Qed.

(** C6. When the manifests of the packages with build output can be read,
    the resolver returns a list whose members are exactly the entries of the
    packages directory that have a [dist] directory and whose declared name
    is a key of the manifest's dependencies or peer dependencies.  So a
    dependency name that no such package declares, and a package without
    build output, are never in the result. *)
Theorem C6_workspace_dependencies (w : World) (pkgJson : PackageJson) :
  readable w = true ->
  exists deps,
    getWorkspaceDependencies w pkgJson = Ret deps /\
    forall pkg, pkg ∈ deps <->
      pkg ∈ packages_dir w /\ has_dist w pkg = true /\
      exists m n, package_json w pkg = Some m /\ name m = Some n /\
        (is_Some (dependencies pkgJson !! n) \/ is_Some (peerDependencies pkgJson !! n)).
Proof.
  intros Hr. eexists. split; [apply getWorkspaceDependencies_readable, Hr|].
  intros pkg. rewrite list_elem_of_In, filter_In, <- list_elem_of_In.
  rewrite getPackagesWithDist_spec, keys_include_spec. split.
  - intros [[Hd Hdist] [n [Hn Hk]]]. split; [exact Hd|]. split; [exact Hdist|].
    unfold declared_name in Hn.
    destruct (package_json w pkg) as [m|] eqn:Hm; [|discriminate].
    exists m, n. simpl in Hn. auto.
  - intros [Hd [Hdist [m [n [Hm [Hn Hk]]]]]]. split; [auto|].
    exists n. split; [|exact Hk]. unfold declared_name. rewrite Hm. exact Hn.
Qed.

Lemma C6_workspace_dependencies_witness :
  readable demo_world = true /\
  exists deps,
    getWorkspaceDependencies demo_world
      (manifest "@otel/core" [("@otel/api", "^1.0.0"); ("lodash", "^4.0.0")] false)
    = Ret deps /\
    forall pkg, pkg ∈ deps <->
      pkg ∈ packages_dir demo_world /\ has_dist demo_world pkg = true /\
      exists m n, package_json demo_world pkg = Some m /\ name m = Some n /\
        (is_Some (dependencies
                    (manifest "@otel/core" [("@otel/api", "^1.0.0"); ("lodash", "^4.0.0")] false)
                  !! n) \/
         is_Some (peerDependencies
                    (manifest "@otel/core" [("@otel/api", "^1.0.0"); ("lodash", "^4.0.0")] false)
                  !! n)).
Proof.
  split; [vm_compute; reflexivity|].
  apply (C6_workspace_dependencies demo_world). vm_compute. reflexivity.
Defined.

(** ** Teardown of the temporary directory *)

(** C1. The import test of a package that is not private returns a boolean
    whatever happens in its [try] block, and its events are: the creation of
    the temporary directory, then events that neither create nor remove a
    directory, then the removal of that directory, as the last event.  So
    the directory is removed once, before the test returns, and it is gone
    in the file system the test leaves. *)
Theorem C1_teardown_once (w : World) (pkgName : string) (pkgJson : PackageJson) (s : FS) :
  package_json w pkgName = Some pkgJson ->
  private pkgJson = false ->
  let r := testPackageImports w pkgName s in
  let tempDir := next_tmp s in
  (exists b, outcome r = Ret b) /\
  (exists steps,
      trace r = Mkdtemp tempDir :: steps ++ [RmSync tempDir] /\
      Forall (fun e => lifecycle e = false) steps) /\
  length (List.filter lifecycle (trace r)) = 2 /\
  sandboxes (final r) !! tempDir = None.
Proof.
  intros Hj Hp r d. subst r.
  rewrite (testPackageImports_run w pkgName pkgJson s Hj Hp). fold d.
  pose proof (testPackageImports_try_lifecycle w d pkgName pkgJson (after_mkdtemp s)) as Hl.
  pose proof (testPackageImports_try_no_exit w d pkgName pkgJson (after_mkdtemp s)) as Hx.
  assert (forall l, Forall (fun e => lifecycle e = false) l -> List.filter lifecycle l = []) as Hnil.
  { induction 1 as [|e l He _ IH]; simpl; [reflexivity|]. rewrite He. exact IH. }
  destruct (outcome _) as [b|e|c] eqn:E.
  - cbn [outcome final trace]. split; [eauto|]. split; [eauto|]. split.
    + simpl. rewrite List.filter_app, (Hnil _ Hl). reflexivity.
    + simpl. apply lookup_delete_eq.
  - cbn [outcome final trace]. split; [eauto|]. split.
    + exists (trace (testPackageImports_try w d pkgName pkgJson (after_mkdtemp s))
              ++ [Log [red] ("    ✗ Import test failed: " ++ e)]).
      split; [rewrite <- app_assoc; reflexivity|].
      apply Forall_app. split; [exact Hl|]. repeat constructor.
    + split; [|simpl; apply lookup_delete_eq].
      simpl. rewrite List.filter_app, (Hnil _ Hl). reflexivity.
  - exfalso. exact (Hx c eq_refl).
Qed.

Lemma C1_teardown_once_witness :
  private (manifest "@otel/core" [("@otel/api", "^1.0.0"); ("lodash", "^4.0.0")] false)
    = false /\
  (exists b, outcome (testPackageImports demo_world "core" empty_fs) = Ret b) /\
  (exists steps,
      trace (testPackageImports demo_world "core" empty_fs)
        = Mkdtemp 0 :: steps ++ [RmSync 0] /\
      Forall (fun e => lifecycle e = false) steps) /\
  length (List.filter lifecycle (trace (testPackageImports demo_world "core" empty_fs))) = 2 /\
  sandboxes (final (testPackageImports demo_world "core" empty_fs)) !! 0 = None.
Proof.
  split; [reflexivity|].
  apply (C1_teardown_once demo_world "core"
           (manifest "@otel/core" [("@otel/api", "^1.0.0"); ("lodash", "^4.0.0")] false)
           empty_fs); reflexivity.
Defined.

(** ** The order of the installs *)

Lemma installs_ordered_nil : installs_ordered [].
Proof. split; intros; simplify_eq. Qed.

Lemma installs_ordered_front (A R : list Event) :
  Forall (fun e => before_main e = true) A -> installs_ordered R ->
  installs_ordered (A ++ R).
Proof.
  intros HA [Ha Hb]. split.
  - intros i j e1 e2 Hi Hj H1 H2.
    destruct (decide (j < length A)) as [Hlt|Hge].
    + rewrite lookup_app_l in Hj by exact Hlt.
      rewrite Forall_lookup in HA. specialize (HA _ _ Hj).
      unfold before_main in HA. rewrite H2 in HA. discriminate.
    + destruct (decide (i < length A)) as [Hi'|Hi']; [lia|].
      rewrite lookup_app_r in Hi, Hj by lia.
      specialize (Ha _ _ _ _ Hi Hj H1 H2). lia.
  - intros k d n st Hk.
    destruct (decide (k < length A)) as [Hlt|Hge].
    + rewrite lookup_app_l in Hk by exact Hlt.
      rewrite Forall_lookup in HA. specialize (HA _ _ Hk). discriminate.
    + rewrite lookup_app_r in Hk by lia.
      destruct (Hb _ _ _ _ Hk) as [j [Hj Hjk]].
      exists (length A + j). split; [lia|].
      rewrite lookup_app_r by lia. replace (length A + j - length A) with j by lia.
      exact Hjk.
Qed.

Lemma installs_ordered_back (t C : list Event) :
  installs_ordered t -> Forall (fun e => no_step e = true) C ->
  installs_ordered (t ++ C).
Proof.
  intros [Ha Hb] HC. rewrite Forall_lookup in HC. split.
  - intros i j e1 e2 Hi Hj H1 H2.
    destruct (decide (i < length t)) as [Hi'|Hi'].
    + destruct (decide (j < length t)) as [Hlt|Hge]; [|lia].
      rewrite lookup_app_l in Hi, Hj by lia. eauto.
    + rewrite lookup_app_r in Hi by lia. specialize (HC _ _ Hi).
      unfold no_step in HC. rewrite H1 in HC. discriminate.
  - intros k d n st Hk.
    destruct (decide (k < length t)) as [Hlt|Hge].
    + rewrite lookup_app_l in Hk by lia.
      destruct (Hb _ _ _ _ Hk) as [j [Hj Hjk]]. exists j. split; [exact Hj|].
      rewrite lookup_app_l by lia. exact Hjk.
    + rewrite lookup_app_r in Hk by lia. specialize (HC _ _ Hk). discriminate.
Qed.

Lemma installs_ordered_bind {A B} (m : M A) (k : A -> M B) :
  emits (fun e => before_main e = true) m ->
  (forall a s, installs_ordered (trace (k a s))) ->
  forall s, installs_ordered (trace (bind m k s)).
Proof.
  intros Hm Hk s. rewrite bind_run.
  destruct (outcome (m s)); cbn [trace].
  - apply installs_ordered_front; [apply Hm | apply Hk].
  - rewrite <- (app_nil_r (trace (m s))).
    apply installs_ordered_front; [apply Hm | apply installs_ordered_nil].
  - rewrite <- (app_nil_r (trace (m s))).
    apply installs_ordered_front; [apply Hm | apply installs_ordered_nil].
Qed.

Lemma installs_ordered_main (w : World) tempDir pkgJson (s : FS) :
  installs_ordered
    (trace ((npmInstall w tempDir (NpmInstallMain tempDir) "package.tgz" ;;
             testEsmImport w tempDir pkgJson ;;
             ret true) s)).
Proof.
  rewrite bind_run, npmInstall_run.
  destruct (sandboxes s !! tempDir) as [sb|]; [|apply installs_ordered_nil].
  cbv zeta. destruct (succeeded (npm_install w sb "package.tgz")) eqn:Es.
  - assert (npm_install w sb "package.tgz" = Some 0%Z) as ->.
    { destruct (npm_install w sb "package.tgz") as [[]|]; simpl in Es; congruence. }
    cbn [outcome final trace]. rewrite trace_then_ret, testEsmImport_run.
    unfold with_sandbox. cbn [sandboxes]. rewrite lookup_insert_eq. cbv zeta.
    assert (installs_ordered
      [Spawn (NpmInstallMain tempDir) (Some 0%Z);
       Spawn (NodeImport tempDir (template (name pkgJson)))
             (Some (import_check (esm_import w (add_installed "package.tgz" sb)
                                             (template (name pkgJson)))))]) as Hok.
    { split.
      - intros [|[|i]] [|[|j]] e1 e2 Hi Hj H1 H2; simpl in *; simplify_eq;
          simpl in *; try discriminate; try lia.
      - intros [|[|k]] d n st Hk; simpl in *; simplify_eq.
        exists 0. split; [lia | reflexivity]. }
    destruct (_ =? _)%Z; exact Hok.
  - cbn [outcome final trace]. split.
    + intros [|i] [|j] e1 e2 Hi Hj H1 H2; simpl in *; simplify_eq; simpl in *;
        discriminate.
    + intros [|k] d n st Hk; simpl in *; simplify_eq.
Qed.

Lemma testPackageImports_try_ordered (w : World) tempDir pkgName pkgJson (s : FS) :
  installs_ordered (trace (testPackageImports_try w tempDir pkgName pkgJson s)).
Proof.
  revert s. unfold testPackageImports_try.
  apply installs_ordered_bind; [apply emits_lift|]. intros deps.
  apply installs_ordered_bind.
  { unfold_steps. repeat first [ step_emits | reflexivity ]. }
  intros _. apply installs_ordered_bind.
  { unfold_steps. repeat first [ step_emits | reflexivity ]. }
  intros _. apply installs_ordered_bind.
  { unfold_steps. repeat first [ step_emits | reflexivity ]. }
  intros _. apply installs_ordered_bind.
  { unfold_steps. repeat first [ step_emits | reflexivity ]. }
  intros _. apply installs_ordered_main.
Qed.

Lemma testPackageImports_ordered (w : World) (pkgName : string) (s : FS) :
  installs_ordered (trace (testPackageImports w pkgName s)).
Proof.
  destruct (package_json w pkgName) as [pkgJson|] eqn:Hj.
  - destruct (private pkgJson) eqn:Hp.
    + unfold testPackageImports, getPackageJson. rewrite Hj. unfold lift.
      rewrite bind_run. cbn [outcome final trace]. rewrite Hp.
      apply (installs_ordered_front [_] []); [repeat constructor | apply installs_ordered_nil].
    + rewrite (testPackageImports_run w pkgName pkgJson s Hj Hp).
      pose proof (testPackageImports_try_ordered w (next_tmp s) pkgName pkgJson
                    (after_mkdtemp s)) as Ho.
      destruct (outcome _); cbn [trace].
      * apply (installs_ordered_front [_]); [repeat constructor|].
        apply installs_ordered_back; [exact Ho | repeat constructor].
      * apply (installs_ordered_front [_]); [repeat constructor|].
        apply installs_ordered_back; [exact Ho | repeat constructor].
      * apply (installs_ordered_front [_]); [repeat constructor | exact Ho].
  - unfold testPackageImports, getPackageJson. rewrite Hj. apply installs_ordered_nil.
Qed.

(** C9. In the events of an import test, every install of a workspace
    dependency comes before the install of the package under test, and the
    import check comes after an install of the package under test that
    exited with status [0], in the same temporary directory. *)
Theorem C9_install_order (w : World) (pkgName : string) (s : FS) :
  let t := trace (testPackageImports w pkgName s) in
  (forall i j d1 depPkg st1 d2 st2,
      t !! i = Some (Spawn (NpmInstallDep d1 depPkg) st1) ->
      t !! j = Some (Spawn (NpmInstallMain d2) st2) ->
      i < j) /\
  (forall k d n st,
      t !! k = Some (Spawn (NodeImport d n) st) ->
      exists j, j < k /\ t !! j = Some (Spawn (NpmInstallMain d) (Some 0%Z))).
Proof.
  destruct (testPackageImports_ordered w pkgName s) as [Ha Hb]. split.
  - intros i j d1 depPkg st1 d2 st2 Hi Hj. exact (Ha _ _ _ _ Hi Hj eq_refl eq_refl).
  - exact Hb.
Qed.

Lemma C9_install_order_witness :
  trace (testPackageImports demo_world "core" empty_fs) !! 6
    = Some (Spawn (NpmInstallDep 0 "api") (Some 0%Z)) /\
  trace (testPackageImports demo_world "core" empty_fs) !! 7
    = Some (Spawn (NpmInstallMain 0) (Some 0%Z)) /\
  6 < 7 /\
  exists j, j < 8 /\
    trace (testPackageImports demo_world "core" empty_fs) !! j
      = Some (Spawn (NpmInstallMain 0) (Some 0%Z)).
Proof.
  destruct (C9_install_order demo_world "core" empty_fs) as [Ha Hb].
  split; [reflexivity|]. split; [reflexivity|]. split.
  - apply (Ha 6 7 0 "api" (Some 0%Z) 0 (Some 0%Z)); reflexivity.
  - apply (Hb 8 0 "@otel/core" (Some 0%Z)). reflexivity.
Defined.

(** ** The import check *)

Lemma import_check_spec (r : LoadResult) : import_check r = 0%Z <-> r <> LoadError.
Proof. destruct r; simpl; split; congruence. Qed.

(** C2, as the script has it.  In a temporary directory that exists, the
    import check spawns [node] once; the exit status is [0], and the step
    returns, exactly when loading the package by its declared name succeeds.
    The namespace object of a loaded module is truthy whatever it exports,
    so the test [if (!pkg)] never fails a package that loads. *)
Theorem C2_import_check (w : World) (tempDir : nat) (pkgJson : PackageJson)
    (s : FS) (sb : Sandbox) :
  sandboxes s !! tempDir = Some sb ->
  let loaded := esm_import w sb (template (name pkgJson)) in
  let r := testEsmImport w tempDir pkgJson s in
  (import_check loaded = 0%Z <-> loaded <> LoadError) /\
  (outcome r = Ret tt <-> loaded <> LoadError) /\
  trace r = [Spawn (NodeImport tempDir (template (name pkgJson)))
                   (Some (import_check loaded))].
Proof.
  intros Hsb loaded r. subst r. rewrite testEsmImport_run, Hsb. cbv zeta. fold loaded.
  split; [apply import_check_spec|].
  destruct loaded; simpl; (split; [split; congruence | reflexivity]).
Qed.

Lemma C2_import_check_witness :
  sandboxes (after_mkdtemp empty_fs) !! 0 = Some empty_sandbox /\
  (outcome (testEsmImport demo_world 0 (manifest "@otel/api" [] false)
                          (after_mkdtemp empty_fs)) = Ret tt <->
   esm_import demo_world empty_sandbox "@otel/api" <> LoadError).
Proof.
  split; [reflexivity|].
  apply (C2_import_check demo_world 0 (manifest "@otel/api" [] false)
           (after_mkdtemp empty_fs) empty_sandbox).
  reflexivity.
Defined.

(** C2 fails as stated: in a workspace whose entry points export nothing,
    the namespace object is empty, the import check exits with status [0]
    and the import test returns [true]. *)
Lemma C2_empty_namespace_passes :
  (forall sb n, esm_import exportless_world sb n = Namespace []) /\
  import_check (Namespace []) = 0%Z /\
  outcome (testPackageImports exportless_world "api" empty_fs) = Ret true.
Proof. split; [reflexivity|]. split; [reflexivity|]. vm_compute. reflexivity. Qed.

(** ** Archives that are not found *)

Lemma packMainPackage_missing (w : World) tempDir pkgName pkgJson safeName (s : FS) :
  safeNameOf (name pkgJson) = Ret safeName ->
  findTarball (npm_pack w pkgName (readdir s pkgName)).2 safeName = None ->
  outcome (packMainPackage w tempDir pkgName pkgJson s) =
  Throw (if succeeded (npm_pack w pkgName (readdir s pkgName)).1
         then "Failed to create tarball for " ++ pkgName
         else "Command failed: npm pack --quiet").
Proof.
  intros Hn Hf. unfold packMainPackage. rewrite bind_run, npmPack_run. cbv zeta.
  destruct (succeeded _); cbn [outcome final trace]; [|reflexivity].
  rewrite Hn. run_steps.
  rewrite readdir_after_pack, Hf. reflexivity.
Qed.

Lemma packMainPackage_returned (w : World) tempDir pkgName pkgJson (s : FS) u :
  outcome (packMainPackage w tempDir pkgName pkgJson s) = Ret u ->
  exists safeName tarball,
    safeNameOf (name pkgJson) = Ret safeName /\
    findTarball (npm_pack w pkgName (readdir s pkgName)).2 safeName = Some tarball /\
    Rename pkgName tarball tempDir "package.tgz"
      ∈ trace (packMainPackage w tempDir pkgName pkgJson s).
Proof.
  unfold packMainPackage. rewrite bind_run, npmPack_run. cbv zeta.
  destruct (succeeded _); cbn [outcome final trace]; [|discriminate].
  destruct (safeNameOf (name pkgJson)) as [safeName|e|c]; run_steps;
    try discriminate.
  rewrite readdir_after_pack.
  destruct (findTarball _ safeName) as [tarball|] eqn:Hf; [|discriminate].
  intros H. exists safeName, tarball. split; [reflexivity|]. split; [exact Hf|].
  revert H. unfold renameSync, sandbox_of. run_steps.
  destruct (sandboxes (after_pack w pkgName s) !! tempDir); [|discriminate].
  intros _. run_steps. set_solver.
Qed.

Lemma packWorkspaceDependency_missing (w : World) tempDir depPkg depJson safeName (s : FS) :
  package_json w depPkg = Some depJson ->
  safeNameOf (name depJson) = Ret safeName ->
  succeeded (npm_pack w depPkg (readdir s depPkg)).1 = true ->
  findTarball (npm_pack w depPkg (readdir s depPkg)).2 safeName = None ->
  packWorkspaceDependency w tempDir depPkg s =
  MkRun (Ret tt) (after_pack w depPkg s)
        [Spawn (NpmPack depPkg) (npm_pack w depPkg (readdir s depPkg)).1].
Proof.
  intros Hj Hn Hs Hf. unfold packWorkspaceDependency.
  rewrite bind_run, npmPack_run. cbv zeta. rewrite Hs. cbn [outcome final trace].
  unfold getPackageJson. rewrite Hj. run_steps. rewrite Hn. run_steps.
  rewrite readdir_after_pack, Hf. reflexivity.
Qed.

Lemma testPackageImports_try_returned (w : World) tempDir pkgName pkgJson (s : FS) b :
  outcome (testPackageImports_try w tempDir pkgName pkgJson s) = Ret b ->
  exists safeName tarball,
    safeNameOf (name pkgJson) = Ret safeName /\
    JsString.startsWith tarball safeName = true /\
    JsString.endsWith tarball ".tgz" = true /\
    Rename pkgName tarball tempDir "package.tgz"
      ∈ trace (testPackageImports_try w tempDir pkgName pkgJson s).
Proof.
  unfold testPackageImports_try. intros H.
  apply bind_returned in H as [deps [_ [H ->]]].
  apply bind_returned in H as [u1 [_ [H ->]]].
  apply bind_returned in H as [u2 [Hp [_ ->]]].
  apply packMainPackage_returned in Hp as [safeName [tarball [Hn [Hf Hin]]]].
  exists safeName, tarball. split; [exact Hn|].
  apply find_some in Hf as [_ Hf]. apply andb_true_iff in Hf as [Hf1 Hf2].
  split; [exact Hf1|]. split; [exact Hf2|].
  rewrite !elem_of_app. auto.
Qed.

(** C3, as the script has it.  For the package under test, an archive that
    is not found after [npm pack] makes the packing step throw, and an
    import test that returns [true] has moved an archive of the package,
    whose name starts with the transformed declared name and ends in
    [.tgz], into the temporary directory.  For a workspace dependency, an
    archive that is not found after a successful [npm pack] is passed
    over: the step returns, nothing is moved and nothing is logged. *)
Theorem C3_missing_archive (w : World) :
  (forall tempDir pkgName pkgJson safeName s,
      safeNameOf (name pkgJson) = Ret safeName ->
      findTarball (npm_pack w pkgName (readdir s pkgName)).2 safeName = None ->
      exists message,
        outcome (packMainPackage w tempDir pkgName pkgJson s) = Throw message) /\
  (forall pkgName pkgJson s,
      package_json w pkgName = Some pkgJson ->
      private pkgJson = false ->
      outcome (testPackageImports w pkgName s) = Ret true ->
      exists safeName tarball,
        safeNameOf (name pkgJson) = Ret safeName /\
        JsString.startsWith tarball safeName = true /\
        JsString.endsWith tarball ".tgz" = true /\
        Rename pkgName tarball (next_tmp s) "package.tgz"
          ∈ trace (testPackageImports w pkgName s)) /\
  (forall tempDir depPkg depJson safeName s,
      package_json w depPkg = Some depJson ->
      safeNameOf (name depJson) = Ret safeName ->
      succeeded (npm_pack w depPkg (readdir s depPkg)).1 = true ->
      findTarball (npm_pack w depPkg (readdir s depPkg)).2 safeName = None ->
      packWorkspaceDependency w tempDir depPkg s =
      MkRun (Ret tt) (after_pack w depPkg s)
            [Spawn (NpmPack depPkg) (npm_pack w depPkg (readdir s depPkg)).1]).
Proof.
  split; [|split].
  - intros tempDir pkgName pkgJson safeName s Hn Hf. eexists.
    apply (packMainPackage_missing w tempDir pkgName pkgJson safeName s Hn Hf).
  - intros pkgName pkgJson s Hj Hp.
    rewrite (testPackageImports_run w pkgName pkgJson s Hj Hp).
    destruct (outcome (testPackageImports_try w (next_tmp s) pkgName pkgJson
                                              (after_mkdtemp s)))
      as [b|e|c] eqn:E; cbn [outcome trace]; try discriminate.
    intros _.
    destruct (testPackageImports_try_returned w _ _ _ _ _ E)
      as [safeName [tarball [Hn [H1 [H2 Hin]]]]].
    exists safeName, tarball. repeat (split; [assumption|]).
    rewrite elem_of_cons, elem_of_app. auto.
  - intros tempDir depPkg depJson safeName s.
    apply packWorkspaceDependency_missing.
Qed.

Lemma C3_missing_archive_witness :
  (exists message,
      outcome (packMainPackage collision_world 0 "package" (manifest "lib" [] false)
                               (after_mkdtemp empty_fs)) = Throw message) /\
  outcome (testPackageImports collision_world "package" empty_fs) = Ret false /\
  (exists safeName tarball,
      safeNameOf (name (manifest "@otel/api" [] false)) = Ret safeName /\
      JsString.startsWith tarball safeName = true /\
      JsString.endsWith tarball ".tgz" = true /\
      Rename "api" tarball 0 "package.tgz"
        ∈ trace (testPackageImports demo_world "api" empty_fs)) /\
  packWorkspaceDependency collision_world 0 "package" (after_mkdtemp empty_fs) =
  MkRun (Ret tt) (after_pack collision_world "package" (after_mkdtemp empty_fs))
        [Spawn (NpmPack "package") (Some 0%Z)].
Proof.
  destruct (C3_missing_archive collision_world) as [H1 [_ H3]].
  destruct (C3_missing_archive demo_world) as [_ [H2 _]].
  split; [|split; [|split]].
  - apply (H1 0 "package" (manifest "lib" [] false) "lib"); reflexivity.
  - vm_compute. reflexivity.
  - apply (H2 "api" (manifest "@otel/api" [] false) empty_fs); vm_compute; reflexivity.
  - apply (H3 0 "package" (manifest "lib" [] false) "lib"); reflexivity.
Defined.

(** C3 fails as stated for a dependency.  In [collision_world] the package
    [app] depends on the package in the directory [package]; [npm pack]
    succeeds there and leaves no archive, which the script passes over.  The
    archive of [app] is then moved to [package.tgz], the name under which
    the dependency is installed, every install succeeds on a file that is
    there, and the import test returns [true]. *)
Lemma C3_dependency_archive_missing_passes :
  getWorkspaceDependencies collision_world (manifest "app" [("lib", "^1.0.0")] false)
    = Ret ["package"] /\
  safeNameOf (name (manifest "lib" [] false)) = Ret "lib" /\
  findTarball (npm_pack collision_world "package" []).2 "lib" = None /\
  testPackageImports collision_world "app" empty_fs =
  MkRun (Ret true)
        {| pkgdirs := {["app" := []; "package" := []]}; sandboxes := ∅; next_tmp := 1 |}
        [Mkdtemp 0;
         Spawn (NpmPack "package") (Some 0%Z);
         Spawn (NpmPack "app") (Some 0%Z);
         Rename "app" "app-1.0.0.tgz" 0 "package.tgz";
         WriteFile 0 "package.json" testPkgJson;
         Spawn (NpmInstallDep 0 "package") (Some 0%Z);
         Spawn (NpmInstallMain 0) (Some 0%Z);
         Spawn (NodeImport 0 "app") (Some 0%Z);
         RmSync 0].
Proof.
  split; [vm_compute; reflexivity|]. split; [reflexivity|]. split; [reflexivity|].
  vm_compute. reflexivity.
Qed.

(** ** Exit statuses of the checkers *)

Lemma checkSyntax_loop (w : World) (l failures : list string) (s : FS) :
  outcome (for_fold l failures (checkSyntax w) s)
  = Ret (failures ++ syntax_failures w l).
Proof.
  revert failures s. induction l as [|pkg l IH]; intros failures s; simpl.
  - rewrite app_nil_r. reflexivity.
  - rewrite bind_run. unfold checkSyntax at 1, spawnSync, log. run_steps.
    destruct (succeeded (es_check w pkg)); cbn [negb]; run_steps.
    + apply IH.
    + rewrite IH, <- app_assoc. reflexivity.
Qed.

Lemma checkSyntaxCompliance_failure (w : World) (s : FS) (pkg : string) :
  pkg ∈ getPackagesWithDist w ->
  succeeded (es_check w pkg) = false ->
  outcome (checkSyntaxCompliance w s) = Ret false.
Proof.
  intros Hin Hs. unfold checkSyntaxCompliance, logSection.
  rewrite bind_run. cbn [emit outcome final trace].
  destruct (getPackagesWithDist w) as [|p l] eqn:El; [inversion Hin|].
  cbn [List.length Nat.eqb]. rewrite bind_run, checkSyntax_loop.
  assert (pkg ∈ syntax_failures w (p :: l)) as Hf.
  { unfold syntax_failures. apply list_elem_of_In, filter_In.
    split; [apply list_elem_of_In, Hin | rewrite Hs; reflexivity]. }
  cbn [app]. destruct (syntax_failures w (p :: l)); [inversion Hf|]. reflexivity.
Qed.

Lemma checkBaselineAPIs_failure (w : World) (s : FS) :
  succeeded (eslint_dist w).1 = false ->
  outcome (checkBaselineAPIs w s) = Ret false.
Proof.
  intros Hs. unfold checkBaselineAPIs, logSection, spawnSync, log. run_steps.
  rewrite Hs. cbn [negb]. run_steps.
  destruct (Js.truthy _); run_steps; reflexivity.
Qed.

Lemma runPublint_returns (w : World) (pkg : string) : returns (runPublint w pkg).
Proof.
  unfold runPublint. apply returns_try_catch.
  - unfold_steps. repeat step_no_exit.
  - intros e. unfold log. apply returns_bind; [apply returns_emit|]. intros _.
    destruct (publint w pkg).2; [apply returns_emit | apply returns_ret].
Qed.

Lemma checkPackageExports_outcome (w : World) (s : FS) :
  outcome (checkPackageExports w s) =
  outcome (for_fold (getPackagesWithDist w) true (checkPackage w) s).
Proof.
  unfold checkPackageExports, logSection. rewrite bind_run.
  cbn [emit outcome final trace]. rewrite bind_run.
  destruct (outcome (for_fold _ _ _ s)) as [allPassed|e|c] eqn:E; try reflexivity.
  cbn [outcome].
  assert (returns (log (nl ++ "  Running publint...") blue ;;
                   for_of (getPackagesWithDist w) (runPublint w) ;;
                   (if allPassed then log (nl ++ "✓ Package exports valid") green
                    else ret tt) ;;
                   ret allPassed)) as Hr.
  { unfold log. apply returns_bind; [apply returns_emit|]. intros _.
    apply returns_bind.
    { apply returns_for_of. intros pkg _. apply runPublint_returns. }
    intros _. apply returns_bind.
    { destruct allPassed; [apply returns_emit | apply returns_ret]. }
    intros _. apply returns_ret. }
  set (s1 := final _).
  destruct (Hr s1) as [b Hb]. rewrite Hb.
  revert Hb. unfold log.
  repeat (let H := fresh in intros H; apply bind_returned in H as [? [_ [H _]]]; revert H).
  cbn [ret outcome]. congruence.
Qed.

(** C7, as the script has it.  An exit status other than [0] of the syntax
    checker on a package with build output makes the syntax compliance
    stage return [false], and one of the baseline linter makes the baseline
    stage return [false].  The exit status of the package metadata linter is
    only reported, as a warning: the result of the package exports stage is
    the same whatever that linter does. *)
Theorem C7_checker_failures (w : World) (s : FS) :
  (forall pkg,
      pkg ∈ getPackagesWithDist w ->
      succeeded (es_check w pkg) = false ->
      outcome (checkSyntaxCompliance w s) = Ret false) /\
  (succeeded (eslint_dist w).1 = false ->
   outcome (checkBaselineAPIs w s) = Ret false) /\
  (forall p,
      outcome (checkPackageExports (update_publint w p) s)
      = outcome (checkPackageExports w s)).
Proof.
  split; [|split].
  - intros pkg. apply checkSyntaxCompliance_failure.
  - apply checkBaselineAPIs_failure.
  - intros p. rewrite !checkPackageExports_outcome. reflexivity.
Qed.

Lemma C7_checker_failures_witness :
  "core" ∈ getPackagesWithDist checkers_failing_world /\
  succeeded (es_check checkers_failing_world "core") = false /\
  outcome (checkSyntaxCompliance checkers_failing_world empty_fs) = Ret false /\
  succeeded (eslint_dist checkers_failing_world).1 = false /\
  outcome (checkBaselineAPIs checkers_failing_world empty_fs) = Ret false.
Proof.
  destruct (C7_checker_failures checkers_failing_world empty_fs) as [H1 [H2 _]].
  assert ("core" ∈ getPackagesWithDist checkers_failing_world) as Hin.
  { apply list_elem_of_In. vm_compute. tauto. }
  split; [exact Hin|]. split; [reflexivity|]. split; [|split; [reflexivity|]].
  - apply (H1 "core"); [exact Hin | reflexivity].
  - apply H2. reflexivity.
Defined.

(** C7 fails as stated for the package metadata linter: when it exits with
    status [1] on every package and everything else passes, the package
    exports stage returns [true]. *)
Lemma C7_publint_failure_passes :
  (forall pkg, succeeded (publint publint_failing_world pkg).1 = false) /\
  Spawn (Publint "api") (Some 1%Z)
    ∈ trace (checkPackageExports publint_failing_world empty_fs) /\
  outcome (checkPackageExports publint_failing_world empty_fs) = Ret true.
Proof.
  split; [reflexivity|]. split; [|vm_compute; reflexivity].
  apply list_elem_of_In. vm_compute. tauto.
Qed.

(** ** Source maps *)

Lemma validateSourcemap_run (w : World) (pkgName jsFile : string) (s : FS) :
  validateSourcemap w pkgName jsFile s =
  match sourcemap_failure w pkgName jsFile with
  | None => MkRun (Ret None) s []
  | Some message => MkRun (Ret (Some false)) s [Log [red] message]
  end.
Proof.
  unfold validateSourcemap, sourcemap_failure.
  destruct (dist_exists w pkgName (jsFile ++ ".map")%string); cbn [negb]; [|reflexivity].
  rewrite bind_run. unfold try_catch, try_catch_finally, log.
  destruct (dist_json w pkgName (jsFile ++ ".map")%string) as [map|]; [|reflexivity].
  destruct (Js.get map "sources") as [sources|]; [|reflexivity].
  destruct (Js.truthy (Js.get_optional sources "length")); cbn [negb]; [|reflexivity].
  cbn [ret outcome final trace app].
  destruct (JsString.includes _ _); reflexivity.
Qed.

Lemma validateSourcemaps_loop (w : World) (pkgName : string) (s : FS)
    (pre post : list string) (jsFile : string) :
  (forall g, g ∈ pre -> sourcemap_failure w pkgName g = None) ->
  for_return (pre ++ jsFile :: post) (validateSourcemap w pkgName) s =
  match sourcemap_failure w pkgName jsFile with
  | None => for_return post (validateSourcemap w pkgName) s
  | Some message => MkRun (Ret (Some false)) s [Log [red] message]
  end.
Proof.
  induction pre as [|g pre IH]; intros Hpre; simpl.
  - rewrite bind_run, validateSourcemap_run.
    destruct (sourcemap_failure w pkgName jsFile); cbn [outcome final trace ret app].
    + reflexivity.
    + destruct (for_return post _ s); reflexivity.
  - rewrite bind_run, validateSourcemap_run, (Hpre g) by left.
    cbn [outcome final trace app]. rewrite IH.
    + destruct (sourcemap_failure w pkgName jsFile); [reflexivity|].
      destruct (for_return post _ s); reflexivity.
    + intros g' Hg'. apply Hpre. right. exact Hg'.
Qed.

Lemma validateSourcemaps_pass (w : World) (pkgName : string) (s : FS) (l : list string) :
  (forall g, g ∈ l -> sourcemap_failure w pkgName g = None) ->
  for_return l (validateSourcemap w pkgName) s = MkRun (Ret None) s [].
Proof.
  induction l as [|g l IH]; intros Hl; simpl; [reflexivity|].
  rewrite bind_run, validateSourcemap_run, (Hl g) by left.
  cbn [outcome final trace app]. rewrite IH; [reflexivity|].
  intros g' Hg'. apply Hl. right. exact Hg'.
Qed.

(** C8, as the script has it.  The validator goes through the [.js] files
    of [dist] in the order of the listing.  A file without a companion map
    is skipped: nothing is checked and nothing is logged.  A file whose map
    cannot be parsed, or has an empty list of sources, fails, and so does a
    file that has a map and no reference to a source map; each logs one
    line.  The validator returns [false] at the first file that fails,
    with that one line, whatever the files after it are, and [true] when no
    file fails.  So the reference to a source map is required of the files
    that have a map, not of every compiled file. *)
Theorem C8_sourcemaps (w : World) (pkgName : string) (s : FS) :
  (forall jsFile,
      dist_exists w pkgName (jsFile ++ ".map")%string = false ->
      validateSourcemap w pkgName jsFile s = MkRun (Ret None) s []) /\
  (forall jsFile,
      dist_exists w pkgName (jsFile ++ ".map")%string = true ->
      dist_json w pkgName (jsFile ++ ".map")%string = None \/
      (exists properties,
          dist_json w pkgName (jsFile ++ ".map")%string = Some (VObject properties) /\
          Js.lookup_property "sources" properties = VArray []) ->
      exists message,
        validateSourcemap w pkgName jsFile s
        = MkRun (Ret (Some false)) s [Log [red] message]) /\
  (forall jsFile,
      dist_exists w pkgName (jsFile ++ ".map")%string = true ->
      JsString.includes (dist_text w pkgName jsFile) "sourceMappingURL=" = false ->
      exists message,
        validateSourcemap w pkgName jsFile s
        = MkRun (Ret (Some false)) s [Log [red] message]) /\
  (forall pre jsFile post message,
      jsFilesOf w pkgName = pre ++ jsFile :: post ->
      (forall g, g ∈ pre -> validateSourcemap w pkgName g s = MkRun (Ret None) s []) ->
      validateSourcemap w pkgName jsFile s
        = MkRun (Ret (Some false)) s [Log [red] message] ->
      validateSourcemaps w pkgName s = MkRun (Ret false) s [Log [red] message]) /\
  ((forall g, g ∈ jsFilesOf w pkgName ->
              validateSourcemap w pkgName g s = MkRun (Ret None) s []) ->
   validateSourcemaps w pkgName s = MkRun (Ret true) s []).
Proof.
  assert (forall g, validateSourcemap w pkgName g s = MkRun (Ret None) s [] ->
                    sourcemap_failure w pkgName g = None) as Hnone.
  { intros g. rewrite validateSourcemap_run.
    destruct (sourcemap_failure w pkgName g); [discriminate | reflexivity]. }
  split; [|split; [|split; [|split]]].
  - intros jsFile He. rewrite validateSourcemap_run. unfold sourcemap_failure.
    rewrite He. reflexivity.
  - intros jsFile He Hbad. rewrite validateSourcemap_run. unfold sourcemap_failure.
    rewrite He. cbn [negb].
    destruct Hbad as [-> | [properties [-> Hs]]]; [eauto|].
    cbn [Js.get]. rewrite Hs. cbn. eauto.
  - intros jsFile He Hi. rewrite validateSourcemap_run. unfold sourcemap_failure.
    rewrite He, Hi. cbn [negb].
    destruct (dist_json _ _ _) as [map|]; [|eauto].
    destruct (Js.get map "sources") as [sources|]; [|eauto].
    destruct (negb _); eauto.
  - intros pre jsFile post message Hl Hpre Hf.
    unfold validateSourcemaps. rewrite bind_run, Hl.
    rewrite validateSourcemaps_loop by (intros g Hg; apply Hnone, Hpre, Hg).
    rewrite validateSourcemap_run in Hf.
    destruct (sourcemap_failure w pkgName jsFile) as [m|]; [|discriminate].
    injection Hf as ->. reflexivity.
  - intros Hall. unfold validateSourcemaps.
    rewrite bind_run, validateSourcemaps_pass by (intros g Hg; apply Hnone, Hall, Hg).
    reflexivity.
Qed.

Lemma C8_sourcemaps_witness :
  jsFilesOf bad_map_world "api" = ["a.js"] ++ "b.js" :: ["c.js"] /\
  validateSourcemap bad_map_world "api" "a.js" empty_fs = MkRun (Ret None) empty_fs [] /\
  validateSourcemaps bad_map_world "api" empty_fs
  = MkRun (Ret false) empty_fs [Log [red] "    ✗ b.js.map has no sources"].
Proof.
  destruct (C8_sourcemaps bad_map_world "api" empty_fs) as [H1 [H2 [H3 [H4 H5]]]].
  split; [reflexivity|]. split.
  - apply H1. reflexivity.
  - apply (H4 ["a.js"] "b.js" ["c.js"]).
    + reflexivity.
    + intros g Hg. apply list_elem_of_singleton in Hg as ->. apply H1. reflexivity.
    + reflexivity.
Defined.

(** C8 fails as stated: a compiled file without a companion map and
    without a reference to a source map passes. *)
Lemma C8_reference_not_required :
  jsFilesOf mapless_world "api" = ["index.js"] /\
  JsString.includes (dist_text mapless_world "api" "index.js") "sourceMappingURL=" = false /\
  validateSourcemaps mapless_world "api" empty_fs = MkRun (Ret true) empty_fs [].
Proof. repeat split. Qed.

(** ** The orchestrator *)

Lemma checkSyntaxCompliance_returns (w : World) : returns (checkSyntaxCompliance w).
Proof.
  unfold checkSyntaxCompliance, logSection, log.
  repeat step_returns. unfold checkSyntax, spawnSync, log. repeat step_returns.
Qed.

Lemma checkBaselineAPIs_returns (w : World) : returns (checkBaselineAPIs w).
Proof. unfold checkBaselineAPIs, logSection, spawnSync, log. repeat step_returns. Qed.

Lemma checkBundleSize_returns (w : World) : returns (checkBundleSize w).
Proof. unfold checkBundleSize, reportSize, logSection. repeat step_returns. Qed.

Lemma validateModuleIntegrity_returns (w : World) : returns (validateModuleIntegrity w).
Proof.
  unfold validateModuleIntegrity, logSection, log. repeat step_returns;
    unfold checkModule, spawnSync, log; repeat step_returns.
Qed.

Lemma validateSourcemaps_returns (w : World) (pkgName : string) :
  returns (validateSourcemaps w pkgName).
Proof.
  unfold validateSourcemaps. apply returns_bind.
  - apply returns_for_return. intros jsFile. unfold validateSourcemap, log.
    destruct (negb _); [apply returns_ret|].
    apply returns_bind.
    + apply returns_try_catch.
      * repeat step_no_exit.
      * intros e. repeat step_returns.
    + intros [r|]; repeat step_returns.
  - intros [r|]; apply returns_ret.
Qed.

Lemma testPackageImports_returns (w : World) (pkgName : string) :
  is_Some (package_json w pkgName) -> returns (testPackageImports w pkgName).
Proof.
  intros [pkgJson Hj] s. unfold testPackageImports, getPackageJson. rewrite Hj.
  unfold lift. rewrite bind_run. cbn [outcome final trace].
  destruct (private pkgJson).
  - eexists. reflexivity.
  - assert (returns (tempDir <- mkdtempSync ;;
                     try_catch_finally
                       (testPackageImports_try w tempDir pkgName pkgJson)
                       (fun message =>
                          log ("    ✗ Import test failed: " ++ message) red ;; ret false)
                       (rmSync tempDir))) as Hr.
    { apply returns_bind.
      - unfold mkdtempSync. repeat step_returns.
      - intros tempDir. apply returns_try_catch_finally.
        + apply testPackageImports_try_no_exit.
        + intros e. unfold log. repeat step_returns.
        + unfold rmSync. repeat step_returns. }
    destruct (Hr s) as [b Hb]. exists b. exact Hb.
Qed.


Lemma run_stages_cons (w : World) stage (check : M bool) rest (s s' : FS) b results t :
  outcome (check s) = Ret b ->
  run_stages rest (final (check s)) = MkRun (Ret results) s' t ->
  run_stages ((stage, check) :: rest) s
  = MkRun (Ret ((stage, b) :: results)) s' (trace (check s) ++ t).
Proof.
  intros Hb Hrest. cbn [run_stages]. rewrite (bind_ret_run _ _ _ _ Hb).
  rewrite bind_run, Hrest. cbn [outcome final trace ret]. rewrite app_nil_r. reflexivity.
Qed.

Lemma main_run (w : World) (s s' : FS) b1 b2 b3 b4 b5 t :
  getPackagesWithDist w <> [] ->
  run_stages (stages w) s =
    MkRun (Ret [("Syntax compliance", b1); ("Web API baseline", b2);
                ("Package exports", b3); ("Bundle size", b4);
                ("Module integrity", b5)]) s' t ->
  main w s =
  MkRun (Exit (if b1 && b2 && b3 && b4 && b5 then 0 else 1)) s'
        ([LogSection "OpenTelemetry Browser Validation";
          Log [dim] ("Found " ++ pretty (List.length (getPackagesWithDist w))
                     ++ " packages with dist/")]
         ++ t ++ summary b1 b2 b3 b4 b5).
Proof.
  intros Hne Hs. unfold main, logSection, log.
  rewrite bind_run. cbn [emit outcome final trace].
  destruct (getPackagesWithDist w) as [|p l] eqn:El; [congruence|].
  cbn [List.length Nat.eqb]. run_steps. rewrite Hs. cbn [outcome final trace].
  run_steps. cbn [for_of forallb snd]. run_steps. unfold exit, summary.
  cbn [outcome final trace]. rewrite !andb_true_r.
  destruct b1, b2, b3, b4, b5; reflexivity.
Qed.


Lemma no_exit_for_fold {A S} (xs : list A) (body : A -> S -> M S) :
  (forall x acc, no_exit (body x acc)) -> forall acc, no_exit (for_fold xs acc body).
Proof.
  intros H. induction xs as [|x xs IH]; intros acc; simpl.
  - apply no_exit_ret.
  - apply no_exit_bind; [apply H | intros acc'; apply IH].
Qed.

Lemma no_exit_try_catch_finally {A} (body : M A) handler finalizer :
  no_exit body -> (forall e, no_exit (handler e)) -> returns finalizer ->
  no_exit (try_catch_finally body handler finalizer).
Proof.
  intros Hb Hh Hf s c. unfold try_catch_finally.
  destruct (outcome (body s)) as [a|e|c'] eqn:E.
  - rewrite E. destruct (Hf (final (body s))) as [u Hu]. rewrite Hu. discriminate.
  - cbn [outcome final]. pose proof (Hh e (final (body s))) as Hn.
    destruct (outcome (handler e (final (body s)))) as [a|e'|c'];
      [| |exfalso; exact (Hn c' eq_refl)];
      destruct (Hf (final (handler e (final (body s))))) as [u Hu]; rewrite Hu;
      discriminate.
  - exfalso. exact (Hb s c' E).
Qed.

Lemma testPackageImports_no_exit (w : World) (pkgName : string) :
  no_exit (testPackageImports w pkgName).
Proof.
  unfold testPackageImports. apply no_exit_bind.
  - apply no_exit_lift. apply getPackageJson_no_exit.
  - intros pkgJson. destruct (private pkgJson).
    + unfold log. repeat step_no_exit.
    + apply no_exit_bind; [apply returns_no_exit; unfold mkdtempSync; repeat step_returns|].
      intros tempDir. apply no_exit_try_catch_finally.
      * apply testPackageImports_try_no_exit.
      * intros e. unfold log. repeat step_no_exit.
      * unfold rmSync. repeat step_returns.
Qed.

Lemma checkPackage_no_exit (w : World) (pkg : string) (allPassed : bool) :
  no_exit (checkPackage w pkg allPassed).
Proof.
  unfold checkPackage, log.
  apply no_exit_bind; [step_no_exit|]. intros _.
  apply no_exit_bind; [apply returns_no_exit, validateSourcemaps_returns|]. intros valid.
  destruct (negb valid); [step_no_exit|].
  apply no_exit_bind; [step_no_exit|]. intros _.
  apply no_exit_bind; [apply testPackageImports_no_exit|]. intros imports.
  repeat step_no_exit.
Qed.

Lemma checkPackageExports_no_exit (w : World) : no_exit (checkPackageExports w).
Proof.
  intros s c. rewrite checkPackageExports_outcome.
  apply no_exit_for_fold. intros pkg acc. apply checkPackage_no_exit.
Qed.

Lemma run_stages_throw (stage : string) (check : M bool) rest (s : FS) e :
  outcome (check s) = Throw e ->
  run_stages ((stage, check) :: rest) s = MkRun (Throw e) (final (check s)) (trace (check s)).
Proof. intros H. cbn [run_stages]. rewrite bind_run, H. reflexivity. Qed.

Lemma run_stages_cons_throw (stage : string) (check : M bool) rest (s s' : FS) b e t :
  outcome (check s) = Ret b ->
  run_stages rest (final (check s)) = MkRun (Throw e) s' t ->
  run_stages ((stage, check) :: rest) s = MkRun (Throw e) s' (trace (check s) ++ t).
Proof.
  intros Hb Hrest. cbn [run_stages]. rewrite (bind_ret_run _ _ _ _ Hb).
  rewrite bind_run, Hrest. reflexivity.
Qed.

Lemma main_throw (w : World) (s s' : FS) e t :
  getPackagesWithDist w <> [] ->
  run_stages (stages w) s = MkRun (Throw e) s' t ->
  main w s =
  MkRun (Throw e) s'
        ([LogSection "OpenTelemetry Browser Validation";
          Log [dim] ("Found " ++ pretty (List.length (getPackagesWithDist w))
                     ++ " packages with dist/")] ++ t).
Proof.
  intros Hne Hs. unfold main, logSection, log.
  rewrite bind_run. cbn [emit outcome final trace].
  destruct (getPackagesWithDist w) as [|p l] eqn:El; [congruence|].
  cbn [List.length Nat.eqb]. run_steps. rewrite Hs. reflexivity.
Qed.




(** * Further properties *)

(** ** Strings *)

Lemma append_cons (c : ascii) (a b : string) :
  (String c a ++ b)%string = String c (a ++ b).
Proof. reflexivity. Qed.

Lemma string_prefix_app (p s : string) : String.prefix p (p ++ s) = true.
Proof.
  induction p as [|c p IH]; simpl; [destruct s; reflexivity|].
  destruct (ascii_dec c c); [exact IH | congruence].
Qed.

Lemma string_prefix_inv (p s : string) :
  String.prefix p s = true -> exists t, s = (p ++ t)%string.
Proof.
  revert s. induction p as [|c p IH]; intros s H.
  - exists s. reflexivity.
  - destruct s as [|d s]; simpl in H; [discriminate|].
    destruct (ascii_dec c d) as [->|]; [|discriminate].
    destruct (IH s H) as [t ->]. exists t. reflexivity.
Qed.

Lemma startsWith_spec (s p : string) :
  JsString.startsWith s p = true <-> exists t, s = (p ++ t)%string.
Proof.
  unfold JsString.startsWith. split; [apply string_prefix_inv|].
  intros [t ->]. apply string_prefix_app.
Qed.

Lemma string_length_app (a b : string) :
  String.length (a ++ b) = String.length a + String.length b.
Proof. induction a as [|c a IH]; simpl; [reflexivity | rewrite IH; reflexivity]. Qed.

Lemma substring_all (s : string) : String.substring 0 (String.length s) s = s.
Proof. induction s as [|c s IH]; simpl; [reflexivity | rewrite IH; reflexivity]. Qed.

Lemma substring_skip (a b : string) (m : nat) :
  String.substring (String.length a) m (a ++ b) = String.substring 0 m b.
Proof. induction a as [|c a IH]; simpl; [reflexivity | exact IH]. Qed.

Lemma substring_split (s : string) (k : nat) :
  k <= String.length s ->
  exists a, s = (a ++ String.substring k (String.length s - k) s)%string
            /\ String.length a = k.
Proof.
  revert s. induction k as [|k IH]; intros s Hk.
  - exists "". rewrite Nat.sub_0_r, substring_all. split; reflexivity.
  - destruct s as [|c s]; simpl in Hk; [lia|].
    destruct (IH s ltac:(lia)) as [a [Ha Hl]].
    exists (String c a). rewrite append_cons. simpl.
    split; [f_equal; exact Ha | f_equal; exact Hl].
Qed.

Lemma endsWith_spec (s p : string) :
  JsString.endsWith s p = true <-> exists a, s = (a ++ p)%string.
Proof.
  unfold JsString.endsWith. split.
  - destruct (Nat.leb_spec (String.length p) (String.length s)) as [Hle|]; [|discriminate].
    intros H. apply String.eqb_eq in H.
    destruct (substring_split s (String.length s - String.length p) ltac:(lia))
      as [a [Ha _]].
    replace (String.length s - (String.length s - String.length p))
      with (String.length p) in Ha by lia.
    rewrite H in Ha. eauto.
  - intros [a ->]. rewrite string_length_app.
    destruct (Nat.leb_spec (String.length p) (String.length a + String.length p)); [|lia].
    replace (String.length a + String.length p - String.length p)
      with (String.length a) by lia.
    rewrite substring_skip, substring_all. apply String.eqb_refl.
Qed.

Lemma app_js_not_map (a b : string) : (a ++ ".js")%string <> (b ++ ".map")%string.
Proof.
  revert b. induction a as [|c a IH]; intros b H.
  - apply (f_equal String.length) in H. rewrite !string_length_app in H. simpl in H. lia.
  - rewrite append_cons in H. destruct b as [|d b]; [|rewrite append_cons in H].
    + injection H as _ H. apply (f_equal String.length) in H as Hl.
      rewrite string_length_app in Hl. simpl in Hl.
      destruct a; [discriminate | simpl in Hl; lia].
    + injection H as _ H. exact (IH b H).
Qed.

Lemma endsWith_js_not_map (f : string) :
  JsString.endsWith f ".js" = true -> JsString.endsWith f ".map" = false.
Proof.
  intros H. apply endsWith_spec in H as [a ->].
  destruct (JsString.endsWith (a ++ ".js") ".map") eqn:E; [|reflexivity].
  apply endsWith_spec in E as [b E]. destruct (app_js_not_map a b E).
Qed.

Lemma replace_absent (s pat rep : string) :
  JsString.includes s pat = false -> JsString.replace s pat rep = s.
Proof.
  induction s as [|c s IH]; simpl; intros H; apply orb_false_iff in H as [H1 H2].
  - rewrite H1. reflexivity.
  - rewrite H1, (IH H2). reflexivity.
Qed.

(** The first occurrence of a one-character pattern. *)
Lemma replace_char (a b rep : string) (c : ascii) :
  JsString.includes a (String c "") = false ->
  JsString.replace (a ++ String c b) (String c "") rep = (a ++ rep ++ b)%string.
Proof.
  induction a as [|d a IH]; intros H.
  - simpl. destruct (ascii_dec c c); [|congruence]. destruct b; reflexivity.
  - simpl in H. apply orb_false_iff in H as [H1 H2].
    change ((String d a ++ String c b)%string) with (String d (a ++ String c b)).
    cbn [JsString.replace String.prefix].
    destruct (ascii_dec c d) as [->|Hne].
    + destruct a; discriminate.
    + rewrite (IH H2). reflexivity.
Qed.

(** ** Loops whose body leaves the file system alone *)

Lemma for_of_pure {A} (body : A -> M unit) (ev : A -> list Event) :
  (forall x s, body x s = MkRun (Ret tt) s (ev x)) ->
  forall l s, for_of l body s = MkRun (Ret tt) s (flat_map ev l).
Proof.
  intros Hb. induction l as [|x l IH]; intros s; [reflexivity|].
  cbn [for_of flat_map]. rewrite bind_run, Hb. cbn [outcome final trace].
  rewrite IH. reflexivity.
Qed.

Lemma spawns_app (t1 t2 : list Event) : spawns (t1 ++ t2) = spawns t1 ++ spawns t2.
Proof. apply List.filter_app. Qed.

Lemma flat_map_singleton {A B} (f : A -> B) (l : list A) :
  flat_map (fun x => [f x]) l = map f l.
Proof. induction l as [|x l IH]; [reflexivity | simpl; rewrite IH; reflexivity]. Qed.

(** ** Bundle size *)

Lemma fold_left_total (size : string -> N) (l : list string) (a : N) :
  fold_left (fun acc f => (acc + size f)%N) l a = (a + total size l)%N.
Proof.
  revert a. induction l as [|f l IH]; intros a; simpl; [lia|].
  rewrite IH. unfold total. lia.
Qed.

Lemma bundle_files (l : list string) :
  List.filter (fun f => JsString.endsWith f ".js" && negb (JsString.endsWith f ".map")) l
  = List.filter (fun f => JsString.endsWith f ".js") l.
Proof.
  apply List.filter_ext. intros f.
  destruct (JsString.endsWith f ".js") eqn:E; [|reflexivity].
  rewrite (endsWith_js_not_map f E). reflexivity.
Qed.

Lemma reportSize_run (w : World) (pkg : string) (s : FS) :
  reportSize w pkg s = MkRun (Ret tt) s [size_line w pkg].
Proof.
  unfold reportSize, size_line, emit. rewrite bundle_files. fold (jsFilesOf w pkg).
  rewrite !fold_left_total, !N.add_0_l. reflexivity.
Qed.

(** X2. The bundle size stage always returns [true] and changes nothing.
    After its title it logs one line for every package with build output,
    in order: the summed sizes and gzip sizes of the [.js] files of [dist]
    (the [.map] test of its filter excludes nothing, as a name that ends in
    [.js] does not end in [.map]), in yellow exactly when the gzip total is
    above 51200 bytes. *)
Theorem X2_bundle_size_report (w : World) (s : FS) :
  checkBundleSize w s =
  MkRun (Ret true) s
        (LogSection "4. Bundle Size" :: map (size_line w) (getPackagesWithDist w)).
Proof.
  unfold checkBundleSize, logSection. rewrite bind_run. cbn [emit outcome final trace].
  rewrite bind_run, (for_of_pure _ (fun pkg => [size_line w pkg]) (reportSize_run w)).
  cbn [outcome final trace ret]. rewrite app_nil_r, flat_map_singleton. reflexivity.
Qed.

(** ** Archive names *)

(** X4. The name under which an archive is looked up: for a scoped name
    [@scope/rest] whose scope has no slash it is [scope-rest] (only the
    first [@] and the first [/] are replaced, whatever [rest] holds), and
    for a name with neither [@] nor [/] it is the name itself. *)
Theorem X4_safe_name :
  (forall scope rest,
      JsString.includes scope "/" = false ->
      safeNameOf (Some ("@" ++ scope ++ "/" ++ rest)%string)
      = Ret (scope ++ "-" ++ rest)%string) /\
  (forall n,
      JsString.includes n "@" = false ->
      JsString.includes n "/" = false ->
      safeNameOf (Some n) = Ret n).
Proof.
  split.
  - intros scope rest H. unfold safeNameOf. f_equal.
    pose proof (replace_char "" (scope ++ "/" ++ rest) "" "@" eq_refl) as H0.
    change (JsString.replace ("@" ++ scope ++ "/" ++ rest) "@" ""
            = (scope ++ "/" ++ rest)%string) in H0.
    rewrite H0. apply (replace_char scope rest "-" "/" H).
  - intros n H1 H2. unfold safeNameOf. rewrite (replace_absent n "@" "" H1).
    rewrite (replace_absent n "/" "-" H2). reflexivity.
Qed.

Lemma X4_safe_name_witness :
  JsString.includes "otel" "/" = false /\
  safeNameOf (Some "@otel/api") = Ret "otel-api" /\
  safeNameOf (Some "lodash") = Ret "lodash".
Proof.
  destruct X4_safe_name as [H1 H2]. split; [reflexivity|]. split.
  - apply (H1 "otel" "api"). reflexivity.
  - apply (H2 "lodash"); reflexivity.
Defined.

(** X5. The lookup of an archive succeeds whenever the listing has an
    entry made of the safe name, then anything, then [.tgz]; and what it
    finds is an entry of the listing that starts with the safe name, ends
    in [.tgz] and is a truthy string, so that the tests [if (tarball)] and
    [if (!tarball)] of the script are tests of having found one. *)
Theorem X5_archive_lookup (listing : list string) (safeName : string) :
  (forall version,
      (safeName ++ version ++ ".tgz")%string ∈ listing ->
      exists tarball, findTarball listing safeName = Some tarball) /\
  (forall tarball,
      findTarball listing safeName = Some tarball ->
      tarball ∈ listing /\
      (exists rest, tarball = (safeName ++ rest)%string) /\
      (exists stem, tarball = (stem ++ ".tgz")%string) /\
      Js.truthy (VString tarball) = true).
Proof.
  unfold findTarball. split.
  - intros version Hin.
    destruct (List.find _ listing) as [f|] eqn:E; [eauto|].
    apply list_elem_of_In in Hin. pose proof (find_none _ _ E _ Hin) as Hn.
    cbv beta in Hn. apply andb_false_iff in Hn as [Hn|Hn].
    + assert (JsString.startsWith (safeName ++ version ++ ".tgz") safeName = true) as Ht
        by (apply startsWith_spec; eauto).
      congruence.
    + assert (JsString.endsWith (safeName ++ version ++ ".tgz") ".tgz" = true) as Ht.
      { apply endsWith_spec. exists (safeName ++ version)%string.
        clear. induction safeName as [|c a IH]; [reflexivity|].
        rewrite !append_cons, IH. reflexivity. }
      congruence.
  - intros tarball E. apply find_some in E as [Hin Hp].
    apply andb_true_iff in Hp as [H1 H2].
    split; [apply list_elem_of_In, Hin|].
    split; [apply startsWith_spec, H1|].
    apply endsWith_spec in H2 as H3. split; [exact H3|].
    destruct H3 as [stem ->]. destruct stem; reflexivity.
Qed.

Lemma X5_archive_lookup_witness :
  ("otel-api" ++ "-1.0.0" ++ ".tgz")%string ∈ ["README.md"; "otel-api-1.0.0.tgz"; "dist"] /\
  exists tarball,
    findTarball ["README.md"; "otel-api-1.0.0.tgz"; "dist"] "otel-api" = Some tarball /\
    Js.truthy (VString tarball) = true.
Proof.
  destruct (X5_archive_lookup ["README.md"; "otel-api-1.0.0.tgz"; "dist"] "otel-api")
    as [H1 H2].
  assert (("otel-api" ++ "-1.0.0" ++ ".tgz")%string
            ∈ ["README.md"; "otel-api-1.0.0.tgz"; "dist"]) as Hin.
  { apply list_elem_of_In. right. left. reflexivity. }
  split; [exact Hin|].
  destruct (H1 _ Hin) as [tarball E]. exists tarball. split; [exact E|].
  apply (H2 tarball E).
Defined.

(** ** The syntax compliance stage *)

Lemma checkSyntax_run (w : World) (pkg : string) (failures : list string) (s : FS) :
  checkSyntax w pkg failures s =
  MkRun (Ret (if negb (succeeded (es_check w pkg)) then failures ++ [pkg] else failures)) s
        [Spawn (EsCheck pkg) (es_check w pkg);
         if negb (succeeded (es_check w pkg))
         then Log [red] ("  ✗ " ++ pkg) else Log [green] ("  ✓ " ++ pkg)].
Proof.
  unfold checkSyntax, spawnSync, log. run_steps.
  destruct (succeeded (es_check w pkg)); cbn [negb]; run_steps; reflexivity.
Qed.

Lemma syntax_failures_none (w : World) (l : list string) :
  (0 <? List.length (syntax_failures w l))%nat
  = negb (forallb (fun pkg => succeeded (es_check w pkg)) l).
Proof.
  induction l as [|pkg l IH]; [reflexivity|].
  unfold syntax_failures in *. cbn [List.filter forallb].
  destruct (succeeded (es_check w pkg)); cbn [negb andb]; [exact IH | reflexivity].
Qed.

Lemma checkSyntax_loop_run (w : World) (l failures : list string) (s : FS) :
  exists t,
    for_fold l failures (checkSyntax w) s
    = MkRun (Ret (failures ++ syntax_failures w l)) s t /\
    spawns t = map (fun pkg => Spawn (EsCheck pkg) (es_check w pkg)) l.
Proof.
  revert failures. induction l as [|pkg l IH]; intros failures.
  - exists []. cbn [for_fold syntax_failures List.filter]. rewrite app_nil_r.
    split; reflexivity.
  - cbn [for_fold]. rewrite bind_run, checkSyntax_run. cbn [outcome final trace].
    destruct (IH (if negb (succeeded (es_check w pkg)) then failures ++ [pkg] else failures))
      as [t [Ht Hs]].
    rewrite Ht. cbn [outcome final trace]. eexists. split.
    + f_equal. f_equal. unfold syntax_failures. cbn [List.filter].
      destruct (negb (succeeded (es_check w pkg))); [|reflexivity].
      rewrite <- app_assoc. reflexivity.
    + cbn [app map]. unfold spawns in *. cbn [List.filter is_spawn].
      rewrite <- Hs. destruct (negb (succeeded (es_check w pkg))); reflexivity.
Qed.

(** X1. The syntax compliance stage returns [true] exactly when the
    syntax checker exits with status [0] on every package with build output
    (a [null] status counts as a failure).  It runs the checker once on
    every such package, in the order of the listing, also after a failure,
    and it leaves the file system as it was. *)
Theorem X1_syntax_compliance_result (w : World) (s : FS) :
  let r := checkSyntaxCompliance w s in
  outcome r = Ret (forallb (fun pkg => succeeded (es_check w pkg)) (getPackagesWithDist w)) /\
  final r = s /\
  spawns (trace r)
  = map (fun pkg => Spawn (EsCheck pkg) (es_check w pkg)) (getPackagesWithDist w).
Proof.
  cbv zeta. unfold checkSyntaxCompliance, logSection, log.
  rewrite bind_run. cbn [emit outcome final trace].
  destruct (getPackagesWithDist w) as [|p l] eqn:El; [repeat split|].
  cbn [List.length Nat.eqb]. rewrite bind_run.
  destruct (checkSyntax_loop_run w (p :: l) [] s) as [t [Ht Hs]].
  rewrite Ht. cbn [outcome final trace app]. rewrite syntax_failures_none.
  destruct (forallb _ (p :: l)); cbn [negb]; run_steps;
    (split; [reflexivity|]); (split; [reflexivity|]);
    unfold spawns in *; cbn [List.filter is_spawn];
    rewrite List.filter_app, Hs; cbn [List.filter is_spawn]; apply app_nil_r.
Qed.

(** ** The module integrity stage *)

Lemma checkModule_run (w : World) (pkg : string) (allPassed : bool) (s : FS) :
  exists t,
    checkModule w pkg allPassed s
    = MkRun (Ret (if succeeded (grep_require w pkg).1 then false else allPassed)) s t /\
    spawns t = [Spawn (GrepRequire pkg) (grep_require w pkg).1].
Proof.
  unfold checkModule, spawnSync, log. run_steps.
  destruct (succeeded (grep_require w pkg).1); run_steps.
  - destruct (Js.truthy _); run_steps; eexists; split; reflexivity.
  - eexists. split; reflexivity.
Qed.

Lemma checkModule_loop_run (w : World) (l : list string) (allPassed : bool) (s : FS) :
  exists t,
    for_fold l allPassed (checkModule w) s
    = MkRun (Ret (allPassed
                  && forallb (fun pkg => negb (succeeded (grep_require w pkg).1)) l)) s t /\
    spawns t = map (fun pkg => Spawn (GrepRequire pkg) (grep_require w pkg).1) l.
Proof.
  revert allPassed. induction l as [|pkg l IH]; intros allPassed.
  - exists []. cbn [for_fold forallb]. rewrite andb_true_r. split; reflexivity.
  - cbn [for_fold]. rewrite bind_run.
    destruct (checkModule_run w pkg allPassed s) as [t1 [H1 Hs1]].
    rewrite H1. cbn [outcome final trace].
    destruct (IH (if succeeded (grep_require w pkg).1 then false else allPassed))
      as [t [Ht Hs]].
    rewrite Ht. cbn [outcome final trace]. eexists. split.
    + f_equal. f_equal. cbn [forallb].
      destruct (succeeded (grep_require w pkg).1); cbn [negb andb];
        [apply eq_sym, andb_false_r | reflexivity].
    + rewrite spawns_app, Hs1, Hs. reflexivity.
Qed.

(** X3. The module integrity stage returns [true] exactly when [grep]
    exits with a status other than [0] on every package with build output:
    an error status of [grep], or a [null] status, counts like finding no
    [require(].  It runs [grep] once on every such package, in order, also
    after a match, and it leaves the file system as it was. *)
Theorem X3_module_integrity_result (w : World) (s : FS) :
  let r := validateModuleIntegrity w s in
  outcome r = Ret (forallb (fun pkg => negb (succeeded (grep_require w pkg).1))
                           (getPackagesWithDist w)) /\
  final r = s /\
  spawns (trace r)
  = map (fun pkg => Spawn (GrepRequire pkg) (grep_require w pkg).1) (getPackagesWithDist w).
Proof.
  cbv zeta. unfold validateModuleIntegrity, logSection, log.
  rewrite bind_run. cbn [emit outcome final trace]. rewrite bind_run.
  destruct (checkModule_loop_run w (getPackagesWithDist w) true s) as [t [Ht Hs]].
  rewrite Ht. cbn [outcome final trace andb].
  destruct (forallb _ _); run_steps;
    (split; [reflexivity|]); (split; [reflexivity|]);
    unfold spawns in *; cbn [List.filter is_spawn app];
    rewrite List.filter_app, Hs; cbn [List.filter is_spawn]; apply app_nil_r.
Qed.

(** ** Source maps and the import test *)

Lemma validateSourcemaps_first (w : World) (pkgName : string) (l : list string) (s : FS) :
  for_return l (validateSourcemap w pkgName) s =
  match first_failure w pkgName l with
  | None => MkRun (Ret None) s []
  | Some message => MkRun (Ret (Some false)) s [Log [red] message]
  end.
Proof.
  induction l as [|f l IH]; [reflexivity|].
  cbn [for_return first_failure]. rewrite bind_run, validateSourcemap_run.
  destruct (sourcemap_failure w pkgName f); cbn [outcome final trace ret app];
    [reflexivity|]. rewrite IH. destruct (first_failure w pkgName l); reflexivity.
Qed.

Lemma validateSourcemaps_run (w : World) (pkgName : string) (s : FS) :
  validateSourcemaps w pkgName s =
  match first_failure w pkgName (jsFilesOf w pkgName) with
  | None => MkRun (Ret true) s []
  | Some message => MkRun (Ret false) s [Log [red] message]
  end.
Proof.
  unfold validateSourcemaps. rewrite bind_run, validateSourcemaps_first.
  destruct (first_failure _ _ _); reflexivity.
Qed.

Lemma checkPackage_invalid (w : World) (pkg message : string) (allPassed : bool) (s : FS) :
  first_failure w pkg (jsFilesOf w pkg) = Some message ->
  checkPackage w pkg allPassed s =
  MkRun (Ret false) s [Log [blue] ("  " ++ pkg ++ ":"); Log [red] message].
Proof.
  intros H. unfold checkPackage, log. rewrite bind_run. cbn [emit outcome final trace].
  rewrite bind_run, validateSourcemaps_run, H. reflexivity.
Qed.

Lemma checkPackage_returns (w : World) (pkg : string) (allPassed : bool) :
  is_Some (package_json w pkg) -> returns (checkPackage w pkg allPassed).
Proof.
  intros Hj. unfold checkPackage, log.
  apply returns_bind; [apply returns_emit|]. intros _.
  apply returns_bind; [apply validateSourcemaps_returns|]. intros valid.
  destruct (negb valid); [apply returns_ret|].
  apply returns_bind; [apply returns_emit|]. intros _.
  apply returns_bind; [apply testPackageImports_returns, Hj|]. intros imports.
  repeat step_returns.
Qed.

Lemma checkPackage_false (w : World) (pkg : string) (s : FS) (b : bool) :
  outcome (checkPackage w pkg false s) = Ret b -> b = false.
Proof.
  unfold checkPackage, log. intros H.
  apply bind_returned in H as [u [_ [H _]]].
  apply bind_returned in H as [valid [_ [H _]]].
  destruct (negb valid); [cbn in H; congruence|].
  apply bind_returned in H as [u' [_ [H _]]].
  apply bind_returned in H as [imports [_ [H _]]].
  destruct (negb imports); [cbn in H; congruence|].
  apply bind_returned in H as [u'' [_ [H _]]]. cbn in H. congruence.
Qed.

Lemma checkPackages_false (w : World) (l : list string) (s : FS) :
  (forall pkg, pkg ∈ l -> is_Some (package_json w pkg)) ->
  outcome (for_fold l false (checkPackage w) s) = Ret false.
Proof.
  revert s. induction l as [|pkg l IH]; intros s Hl; [reflexivity|].
  cbn [for_fold].
  destruct (checkPackage_returns w pkg false (Hl pkg ltac:(left)) s) as [b Hb].
  rewrite bind_run, Hb. cbn [outcome].
  rewrite (checkPackage_false w pkg s b Hb).
  apply IH. intros p Hp. apply Hl. right. exact Hp.
Qed.

Lemma checkPackages_invalid (w : World) (l : list string) (pkg message : string)
    (allPassed : bool) (s : FS) :
  (forall p, p ∈ l -> is_Some (package_json w p)) ->
  pkg ∈ l ->
  first_failure w pkg (jsFilesOf w pkg) = Some message ->
  outcome (for_fold l allPassed (checkPackage w) s) = Ret false.
Proof.
  revert allPassed s. induction l as [|p l IH]; intros allPassed s Hl Hin Hf.
  - inversion Hin.
  - cbn [for_fold]. rewrite bind_run.
    destruct (decide (p = pkg)) as [->|Hne].
    + rewrite (checkPackage_invalid w pkg message allPassed s Hf).
      cbn [outcome final]. apply checkPackages_false.
      intros q Hq. apply Hl. right. exact Hq.
    + destruct (checkPackage_returns w p allPassed (Hl p ltac:(left)) s) as [b Hb].
      rewrite Hb. cbn [outcome].
      apply IH; [intros q Hq; apply Hl; right; exact Hq | | exact Hf].
      apply elem_of_cons in Hin as [->|Hin]; [congruence | exact Hin].
Qed.

(** X7. When a [.js] file of a package fails the source map validation,
    the loop body of the package exports stage logs the package and the
    failure and ends with [false] without running the import test (no
    temporary directory, no child process, file system unchanged); and when
    the manifests of the packages with build output can be read, the stage
    returns [false], whatever the packages after it do. *)
Theorem X7_invalid_sourcemap_fails (w : World) (pkg message : string) :
  first_failure w pkg (jsFilesOf w pkg) = Some message ->
  (forall allPassed s,
      checkPackage w pkg allPassed s =
      MkRun (Ret false) s [Log [blue] ("  " ++ pkg ++ ":"); Log [red] message]) /\
  (forall s,
      readable w = true ->
      pkg ∈ getPackagesWithDist w ->
      outcome (checkPackageExports w s) = Ret false).
Proof.
  intros Hf. split.
  - intros allPassed s. apply checkPackage_invalid, Hf.
  - intros s Hr Hin. rewrite checkPackageExports_outcome.
    apply (checkPackages_invalid w _ pkg message); [|exact Hin | exact Hf].
    apply readable_spec, Hr.
Qed.

Lemma X7_invalid_sourcemap_fails_witness :
  first_failure bad_map_world "api" (jsFilesOf bad_map_world "api")
    = Some "    ✗ b.js.map has no sources" /\
  readable bad_map_world = true /\
  "api" ∈ getPackagesWithDist bad_map_world /\
  outcome (checkPackageExports bad_map_world empty_fs) = Ret false.
Proof.
  assert ("api" ∈ getPackagesWithDist bad_map_world) as Hin.
  { apply list_elem_of_In. vm_compute. tauto. }
  split; [reflexivity|]. split; [vm_compute; reflexivity|]. split; [exact Hin|].
  apply (X7_invalid_sourcemap_fails bad_map_world "api" "    ✗ b.js.map has no sources");
    [reflexivity | vm_compute; reflexivity | exact Hin].
Defined.

(** ** More about runs *)

Lemma emits_for_fold P {A S} (xs : list A) (body : A -> S -> M S) :
  (forall x acc, emits P (body x acc)) -> forall acc, emits P (for_fold xs acc body).
Proof.
  intros H. induction xs as [|x xs IH]; intros acc; simpl.
  - apply emits_ret.
  - apply emits_bind; [apply H | intros acc'; apply IH].
Qed.

Lemma emits_for_return P {A R} (xs : list A) (body : A -> M (option R)) :
  (forall x, emits P (body x)) -> emits P (for_return xs body).
Proof.
  intros H. induction xs as [|x xs IH]; simpl.
  - apply emits_ret.
  - apply emits_bind; [apply H|]. intros [v|]; [apply emits_ret | exact IH].
Qed.

(** ** The exit of [main] *)

(** X11. [main] never returns: it exits with status [0] or [1], or ends
    with the exception that the package exports stage threw.  It exits with
    status [0] exactly when some package has build output and the five
    stages, run one after the other, all return [true]. *)
Theorem X11_main_exit (w : World) (s : FS) :
  let r1 := checkSyntaxCompliance w s in
  let r2 := checkBaselineAPIs w (final r1) in
  let r3 := checkPackageExports w (final r2) in
  let r4 := checkBundleSize w (final r3) in
  let r5 := validateModuleIntegrity w (final r4) in
  (outcome (main w s) = Exit 0 \/ outcome (main w s) = Exit 1 \/
   exists e, outcome r3 = Throw e /\ outcome (main w s) = Throw e) /\
  (outcome (main w s) = Exit 0 <->
   getPackagesWithDist w <> [] /\
   outcome r1 = Ret true /\ outcome r2 = Ret true /\ outcome r3 = Ret true /\
   outcome r4 = Ret true /\ outcome r5 = Ret true).
Proof.
  intros r1 r2 r3 r4 r5.
  destruct (getPackagesWithDist w) as [|p l] eqn:El.
  - assert (outcome (main w s) = Exit 1) as ->.
    { unfold main. rewrite El. reflexivity. }
    split; [auto|]. split; [discriminate | intros [H _]; congruence].
  - assert (getPackagesWithDist w <> []) as Hne by congruence. rewrite <- El.
    destruct (checkSyntaxCompliance_returns w s) as [b1 H1]. fold r1 in H1.
    destruct (checkBaselineAPIs_returns w (final r1)) as [b2 H2]. fold r2 in H2.
    destruct (checkBundleSize_returns w (final r3)) as [b4 H4]. fold r4 in H4.
    destruct (validateModuleIntegrity_returns w (final r4)) as [b5 H5]. fold r5 in H5.
    destruct (outcome r3) as [b3|e|c] eqn:H3.
    + rewrite (main_run w s (final r5) b1 b2 b3 b4 b5
                 (trace r1 ++ trace r2 ++ trace r3 ++ trace r4 ++ trace r5) Hne).
      * cbn [outcome]. rewrite H1, H2, H4, H5. split.
        -- destruct (b1 && b2 && b3 && b4 && b5); auto.
        -- destruct b1, b2, b3, b4, b5; cbn; split;
             try discriminate; try (intros (_ & ? & ? & ? & ? & ?); congruence);
             intros _; auto 10.
      * unfold stages.
        apply (run_stages_cons w _ _ _ _ _ _ _ _ H1).
        apply (run_stages_cons w _ _ _ _ _ _ _ _ H2).
        apply (run_stages_cons w _ _ _ _ _ _ _ _ H3).
        apply (run_stages_cons w _ _ _ _ _ _ _ _ H4).
        rewrite <- (app_nil_r (trace r5)).
        apply (run_stages_cons w _ _ _ _ _ _ _ _ H5).
        reflexivity.
    + rewrite (main_throw w s (final r3) e (trace r1 ++ trace r2 ++ trace r3) Hne).
      * cbn [outcome]. split; [eauto 6|].
        split; [discriminate | intros (_ & _ & _ & ? & _); congruence].
      * unfold stages.
        apply (run_stages_cons_throw _ _ _ _ _ _ _ _ H1).
        apply (run_stages_cons_throw _ _ _ _ _ _ _ _ H2).
        apply run_stages_throw. exact H3.
    + exfalso. exact (checkPackageExports_no_exit w (final r2) c H3).
Qed.

Ltac step_emits_all :=
  first
    [ step_emits
    | match goal with
      | |- emits _ (for_fold _ _ _) => apply emits_for_fold; intros ? ?
      | |- emits _ (for_return _ _) => apply emits_for_return; intros ?
      | |- emits _ (try_catch_finally _ _ _) =>
          apply emits_try_catch_finally; [|intros ?|]
      end
    | reflexivity ].

Ltac unfold_script :=
  unfold checkSyntaxCompliance, checkSyntax, checkBaselineAPIs, checkPackageExports,
    checkPackage, runPublint, validateSourcemaps, validateSourcemap, testPackageImports,
    testPackageImports_try, mkdtempSync, rmSync;
  unfold_steps.

(** ** An unreadable manifest *)

Lemma omap_unreadable (w : World) (l : list string) :
  forallb (fun pkg => bool_decide (is_Some (package_json w pkg))) l = false ->
  exists e,
    omap (fun pkg => obind (getPackageJson w pkg) (fun j => Ret (name j))) l = Throw e.
Proof.
  induction l as [|pkg l IH]; cbn [forallb omap]; [discriminate|].
  unfold getPackageJson at 1.
  destruct (package_json w pkg) as [j|]; cbn [obind]; [|eauto].
  rewrite bool_decide_eq_true_2 by eauto. cbn [andb]. intros H.
  destruct (IH H) as [e ->]. eauto.
Qed.

Lemma getWorkspaceDependencies_unreadable (w : World) (pkgJson : PackageJson) :
  readable w = false -> exists e, getWorkspaceDependencies w pkgJson = Throw e.
Proof.
  intros H. unfold getWorkspaceDependencies.
  destruct (omap_unreadable w _ H) as [e ->]. eauto.
Qed.

(** X9. When the manifest of some package with build output cannot be
    read, the import test of every package that is not private returns
    [false] without spawning a child process: resolving the workspace
    dependencies reads every such manifest and throws, inside the [try]
    block; the temporary directory is made, the failure is logged and the
    directory is removed. *)
Theorem X9_unreadable_manifest_fails_imports (w : World) (pkgName : string)
    (pkgJson : PackageJson) (s : FS) :
  readable w = false ->
  package_json w pkgName = Some pkgJson ->
  private pkgJson = false ->
  exists e,
    testPackageImports w pkgName s =
    MkRun (Ret false) (after_rm (next_tmp s) (after_mkdtemp s))
          [Mkdtemp (next_tmp s);
           Log [red] ("    ✗ Import test failed: " ++ e);
           RmSync (next_tmp s)].
Proof.
  intros Hr Hj Hp. destruct (getWorkspaceDependencies_unreadable w pkgJson Hr) as [e He].
  exists e. rewrite (testPackageImports_run w pkgName pkgJson s Hj Hp).
  unfold testPackageImports_try. rewrite He. reflexivity.
Qed.

Lemma checkPackages_abort (w : World) (l : list string) (pkg : string)
    (allPassed : bool) (s : FS) :
  pkg ∈ l ->
  package_json w pkg = None ->
  first_failure w pkg (jsFilesOf w pkg) = None ->
  exists e, outcome (for_fold l allPassed (checkPackage w) s) = Throw e.
Proof.
  revert allPassed s. induction l as [|p l IH]; intros allPassed s Hin Hj Hf.
  - inversion Hin.
  - cbn [for_fold]. rewrite bind_run.
    destruct (decide (p = pkg)) as [->|Hne].
    + assert (exists e, outcome (checkPackage w pkg allPassed s) = Throw e) as [e ->].
      { unfold checkPackage, log. rewrite bind_run. cbn [emit outcome final trace].
        rewrite bind_run, validateSourcemaps_run, Hf. cbn [outcome final trace negb].
        rewrite bind_run. cbn [emit outcome final trace].
        rewrite bind_run. unfold testPackageImports, getPackageJson. rewrite Hj.
        rewrite bind_run. cbn [lift outcome]. eauto. }
      eauto.
    + destruct (outcome (checkPackage w p allPassed s)) as [b|e|c] eqn:E.
      * cbn [outcome]. apply IH; [|exact Hj | exact Hf].
        apply elem_of_cons in Hin as [->|Hin]; [congruence | exact Hin].
      * eauto.
      * exfalso. exact (checkPackage_no_exit w p allPassed s c E).
Qed.

(** X10. When a package with build output passes the source map
    validation and its manifest cannot be read, the run ends with an
    exception that nothing catches: the import test reads that manifest
    before its [try] block.  The bundle size stage, the module integrity
    stage and the summary do not run. *)
Theorem X10_unreadable_manifest_aborts (w : World) (pkg : string) (s : FS) :
  pkg ∈ getPackagesWithDist w ->
  package_json w pkg = None ->
  first_failure w pkg (jsFilesOf w pkg) = None ->
  (exists e, outcome (main w s) = Throw e) /\
  Forall (fun ev => after_exports ev = false) (trace (main w s)).
Proof.
  intros Hin Hj Hf.
  assert (getPackagesWithDist w <> []) as Hne by (intros E; rewrite E in Hin; inversion Hin).
  destruct (checkSyntaxCompliance_returns w s) as [b1 H1].
  destruct (checkBaselineAPIs_returns w (final (checkSyntaxCompliance w s))) as [b2 H2].
  set (s2 := final (checkBaselineAPIs w (final (checkSyntaxCompliance w s)))) in *.
  destruct (checkPackages_abort w _ pkg true s2 Hin Hj Hf) as [e He].
  rewrite <- checkPackageExports_outcome in He.
  rewrite (main_throw w s (final (checkPackageExports w s2)) e
             (trace (checkSyntaxCompliance w s)
              ++ trace (checkBaselineAPIs w (final (checkSyntaxCompliance w s)))
              ++ trace (checkPackageExports w s2)) Hne).
  - cbn [outcome trace]. split; [eauto|].
    cbn [app]. constructor; [reflexivity|]. constructor; [reflexivity|].
    rewrite !Forall_app. split; [|split].
    + assert (emits (fun ev => after_exports ev = false) (checkSyntaxCompliance w)) as H
        by (unfold_script; repeat step_emits_all).
      apply H.
    + assert (emits (fun ev => after_exports ev = false) (checkBaselineAPIs w)) as H
        by (unfold_script; repeat step_emits_all).
      apply H.
    + assert (emits (fun ev => after_exports ev = false) (checkPackageExports w)) as H
        by (unfold_script; repeat step_emits_all).
      apply H.
  - unfold stages.
    apply (run_stages_cons_throw _ _ _ _ _ _ _ _ H1).
    apply (run_stages_cons_throw _ _ _ _ _ _ _ _ H2).
    apply run_stages_throw. exact He.
Qed.

(** ** The package metadata linter *)

Lemma filter_none {A} (P : A -> bool) (l : list A) :
  Forall (fun x => P x = false) l -> List.filter P l = [].
Proof. induction 1 as [|x l Hx _ IH]; simpl; [reflexivity|]. rewrite Hx. exact IH. Qed.

Lemma runPublint_run (w : World) (pkg : string) (s : FS) :
  exists t,
    runPublint w pkg s = MkRun (Ret tt) s t /\
    List.filter is_publint t = [Spawn (Publint pkg) (publint w pkg).1].
Proof.
  unfold runPublint, try_catch, try_catch_finally, execSync, log. run_steps.
  destruct (succeeded (publint w pkg).1); run_steps.
  - eexists. split; reflexivity.
  - destruct (publint w pkg).2; run_steps; eexists; split; reflexivity.
Qed.

Lemma runPublint_loop (w : World) (l : list string) (s : FS) :
  exists t,
    for_of l (runPublint w) s = MkRun (Ret tt) s t /\
    List.filter is_publint t = map (fun pkg => Spawn (Publint pkg) (publint w pkg).1) l.
Proof.
  induction l as [|pkg l IH]; [exists []; split; reflexivity|].
  destruct (runPublint_run w pkg s) as [t1 [H1 F1]]. destruct IH as [t [Ht Ft]].
  cbn [for_of]. rewrite bind_run, H1. cbn [outcome final trace]. rewrite Ht.
  cbn [outcome final trace]. eexists. split; [reflexivity|].
  rewrite List.filter_app, F1, Ft. reflexivity.
Qed.

Lemma checkPackages_returns (w : World) (allPassed : bool) :
  readable w = true ->
  returns (for_fold (getPackagesWithDist w) allPassed (checkPackage w)).
Proof.
  intros Hr. apply returns_for_fold. intros pkg acc Hin.
  apply checkPackage_returns. apply (proj1 (readable_spec w) Hr), Hin.
Qed.

(** X8. When the manifests of the packages with build output can be read,
    the package exports stage runs the package metadata linter exactly once
    on every package with build output, in the order of the listing,
    whatever the source map validation and the import tests returned. *)
Theorem X8_publint_every_package (w : World) (s : FS) :
  readable w = true ->
  List.filter is_publint (trace (checkPackageExports w s))
  = map (fun pkg => Spawn (Publint pkg) (publint w pkg).1) (getPackagesWithDist w).
Proof.
  intros Hr. unfold checkPackageExports, logSection, log.
  rewrite bind_run. cbn [emit outcome final trace].
  destruct (checkPackages_returns w true Hr s) as [allPassed Hl].
  rewrite (bind_ret_run _ _ _ _ Hl). cbn [trace].
  assert (emits (fun e => is_publint e = false)
                (for_fold (getPackagesWithDist w) true (checkPackage w))) as He.
  { apply emits_for_fold. intros pkg acc. unfold_script. repeat step_emits_all. }
  rewrite bind_run. cbn [emit outcome final trace]. rewrite bind_run.
  destruct (runPublint_loop w (getPackagesWithDist w)
              (final (for_fold (getPackagesWithDist w) true (checkPackage w) s)))
    as [t [Ht Ft]].
  rewrite Ht. cbn [outcome final trace].
  cbn [app List.filter is_publint]. rewrite !List.filter_app, (filter_none _ _ (He s)).
  cbn [app List.filter is_publint]. rewrite List.filter_app, Ft.
  destruct allPassed; run_steps; cbn [List.filter is_publint]; apply app_nil_r.
Qed.

(** ** Temporary directories *)

Lemma touches_only_ret d {A} (a : A) : touches_only d (ret a).
Proof. intros s. split; reflexivity. Qed.

Lemma touches_only_throw d {A} e : touches_only d (@throw A e).
Proof. intros s. split; reflexivity. Qed.

Lemma touches_only_lift d {A} (o : Outcome A) : touches_only d (lift o).
Proof. intros s. split; reflexivity. Qed.

Lemma touches_only_emit d e : touches_only d (emit e).
Proof. intros s. split; reflexivity. Qed.

Lemma touches_only_get_fs d : touches_only d get_fs.
Proof. intros s. split; reflexivity. Qed.

Lemma touches_only_bind d {A B} (m : M A) (k : A -> M B) :
  touches_only d m -> (forall a, touches_only d (k a)) -> touches_only d (bind m k).
Proof.
  intros Hm Hk s. rewrite bind_run. destruct (Hm s) as [Hn Hs].
  destruct (outcome (m s)) as [a|e|c]; cbn [final]; [|split; assumption..].
  destruct (Hk a (final (m s))) as [Hn' Hs']. split; [congruence|].
  intros d' Hd. rewrite (Hs' d' Hd). apply Hs, Hd.
Qed.

Lemma touches_only_for_of d {A} (xs : list A) (body : A -> M unit) :
  (forall x, touches_only d (body x)) -> touches_only d (for_of xs body).
Proof.
  intros H. induction xs as [|x xs IH]; simpl.
  - apply touches_only_ret.
  - apply touches_only_bind; [apply H | intros _; exact IH].
Qed.

Lemma touches_only_put_sandbox d sb : touches_only d (put_sandbox d sb).
Proof.
  intros s. split; [reflexivity|]. intros d' Hd. cbn. apply lookup_insert_ne. congruence.
Qed.

Lemma touches_only_npmPack d (w : World) pkg : touches_only d (npmPack w pkg).
Proof.
  intros s. rewrite npmPack_run. cbv zeta. destruct (succeeded _); split; reflexivity.
Qed.

Lemma touches_only_renameSync d pkg file dest : touches_only d (renameSync pkg file d dest).
Proof.
  intros s. unfold renameSync, sandbox_of. run_steps.
  destruct (sandboxes s !! d); run_steps; split; try reflexivity.
  intros d' Hd. cbn. apply lookup_insert_ne. congruence.
Qed.

Ltac step_touches :=
  match goal with
  | |- touches_only _ (bind _ _) => apply touches_only_bind; [|intros ?]
  | |- touches_only _ (ret _) => apply touches_only_ret
  | |- touches_only _ (throw _) => apply touches_only_throw
  | |- touches_only _ (lift _) => apply touches_only_lift
  | |- touches_only _ (emit _) => apply touches_only_emit
  | |- touches_only _ get_fs => apply touches_only_get_fs
  | |- touches_only _ (put_sandbox _ _) => apply touches_only_put_sandbox
  | |- touches_only _ (npmPack _ _) => apply touches_only_npmPack
  | |- touches_only _ (renameSync _ _ _ _) => apply touches_only_renameSync
  | |- touches_only _ (for_of _ _) => apply touches_only_for_of; intros ?
  | |- touches_only _ (if ?b then _ else _) => destruct b
  | |- touches_only _ (match ?x with _ => _ end) => destruct x
  end.

Lemma testPackageImports_try_touches (w : World) tempDir pkgName pkgJson :
  touches_only tempDir (testPackageImports_try w tempDir pkgName pkgJson).
Proof.
  unfold testPackageImports_try, packWorkspaceDependency, packMainPackage,
    testEsmImport, npmInstall, writeFileSync, sandbox_of, execSync.
  repeat step_touches.
Qed.

Lemma testPackageImports_sandboxes (w : World) (pkgName : string) (s : FS) :
  sandboxes s !! next_tmp s = None ->
  sandboxes (final (testPackageImports w pkgName s)) = sandboxes s /\
  (next_tmp (final (testPackageImports w pkgName s)) = next_tmp s \/
   next_tmp (final (testPackageImports w pkgName s)) = S (next_tmp s)).
Proof.
  intros Hfresh.
  destruct (package_json w pkgName) as [pkgJson|] eqn:Hj.
  - destruct (private pkgJson) eqn:Hp.
    + unfold testPackageImports, getPackageJson. rewrite Hj. run_steps. rewrite Hp.
      unfold log. run_steps. auto.
    + rewrite (testPackageImports_run w pkgName pkgJson s Hj Hp).
      destruct (testPackageImports_try_touches w (next_tmp s) pkgName pkgJson
                  (after_mkdtemp s)) as [Hn Hs].
      pose proof (testPackageImports_try_no_exit w (next_tmp s) pkgName pkgJson
                    (after_mkdtemp s)) as Hx.
      assert (delete (next_tmp s)
                (sandboxes (final (testPackageImports_try w (next_tmp s) pkgName pkgJson
                                                          (after_mkdtemp s))))
              = sandboxes s) as Hd.
      { apply map_eq. intros d. destruct (decide (d = next_tmp s)) as [->|Hne].
        - rewrite lookup_delete_eq, Hfresh. reflexivity.
        - rewrite lookup_delete_ne by congruence. rewrite (Hs d Hne).
          cbn. apply lookup_insert_ne. congruence. }
      destruct (outcome _) as [b|e|c] eqn:E; cbn [final after_rm sandboxes next_tmp].
      * split; [exact Hd | right; exact Hn].
      * split; [exact Hd | right; exact Hn].
      * exfalso. exact (Hx c eq_refl).
  - unfold testPackageImports, getPackageJson. rewrite Hj. run_steps. auto.
Qed.

Lemma tidy_ret {A} (a : A) : tidy (ret a).
Proof. intros s H. split; [exact H | reflexivity]. Qed.

Lemma tidy_throw {A} e : tidy (@throw A e).
Proof. intros s H. split; [exact H | reflexivity]. Qed.

Lemma tidy_exit {A} c : tidy (@exit A c).
Proof. intros s H. split; [exact H | reflexivity]. Qed.

Lemma tidy_emit e : tidy (emit e).
Proof. intros s H. split; [exact H | reflexivity]. Qed.

Lemma tidy_bind {A B} (m : M A) (k : A -> M B) :
  tidy m -> (forall a, tidy (k a)) -> tidy (bind m k).
Proof.
  intros Hm Hk s Hs. rewrite bind_run. destruct (Hm s Hs) as [Hf He].
  destruct (outcome (m s)) as [a|e|c]; cbn [final]; [|split; assumption..].
  destruct (Hk a (final (m s)) Hf) as [Hf' He']. split; [exact Hf' | congruence].
Qed.

Lemma tidy_for_of {A} (xs : list A) (body : A -> M unit) :
  (forall x, tidy (body x)) -> tidy (for_of xs body).
Proof.
  intros H. induction xs as [|x xs IH]; simpl.
  - apply tidy_ret.
  - apply tidy_bind; [apply H | intros _; exact IH].
Qed.

Lemma tidy_for_fold {A S} (xs : list A) (body : A -> S -> M S) :
  (forall x acc, tidy (body x acc)) -> forall acc, tidy (for_fold xs acc body).
Proof.
  intros H. induction xs as [|x xs IH]; intros acc; simpl.
  - apply tidy_ret.
  - apply tidy_bind; [apply H | intros acc'; apply IH].
Qed.

Lemma tidy_for_return {A R} (xs : list A) (body : A -> M (option R)) :
  (forall x, tidy (body x)) -> tidy (for_return xs body).
Proof.
  intros H. induction xs as [|x xs IH]; simpl.
  - apply tidy_ret.
  - apply tidy_bind; [apply H|]. intros [v|]; [apply tidy_ret | exact IH].
Qed.

Lemma tidy_try_catch {A} (body : M A) handler :
  tidy body -> (forall e, tidy (handler e)) -> tidy (try_catch body handler).
Proof.
  intros Hb Hh s Hs. unfold try_catch, try_catch_finally.
  destruct (Hb s Hs) as [Hf He].
  destruct (outcome (body s)) as [a|e|c] eqn:E.
  - rewrite E. cbn. split; assumption.
  - cbn [outcome final]. destruct (Hh e (final (body s)) Hf) as [Hf' He'].
    destruct (outcome (handler e (final (body s)))); cbn; (split; [exact Hf' | congruence]).
  - rewrite E. split; assumption.
Qed.

Lemma tidy_run_stages (l : list (string * M bool)) :
  Forall (fun p => tidy p.2) l -> tidy (run_stages l).
Proof.
  induction 1 as [|[stage check] l Hc _ IH]; cbn [run_stages].
  - apply tidy_ret.
  - apply tidy_bind; [exact Hc|]. intros passed.
    apply tidy_bind; [exact IH|]. intros results. apply tidy_ret.
Qed.

Lemma tidy_testPackageImports (w : World) (pkgName : string) :
  tidy (testPackageImports w pkgName).
Proof.
  intros s Hs.
  destruct (testPackageImports_sandboxes w pkgName s (Hs _ (Nat.le_refl _))) as [He Hn].
  split; [|exact He]. intros d Hd. rewrite He. apply Hs. lia.
Qed.

Ltac step_tidy :=
  match goal with
  | |- tidy (bind _ _) => apply tidy_bind; [|intros ?]
  | |- tidy (ret _) => apply tidy_ret
  | |- tidy (throw _) => apply tidy_throw
  | |- tidy (exit _) => apply tidy_exit
  | |- tidy (emit _) => apply tidy_emit
  | |- tidy (testPackageImports _ _) => apply tidy_testPackageImports
  | |- tidy (for_of _ _) => apply tidy_for_of; intros ?
  | |- tidy (for_fold _ _ _) => apply tidy_for_fold; intros ? ?
  | |- tidy (for_return _ _) => apply tidy_for_return; intros ?
  | |- tidy (try_catch _ _) => apply tidy_try_catch; [|intros ?]
  | |- tidy (if ?b then _ else _) => destruct b
  | |- tidy (match ?x with _ => _ end) => destruct x
  | |- tidy (let '(_, _) := ?x in _) => destruct x
  end.

Lemma tidy_stages (w : World) : Forall (fun p => tidy p.2) (stages w).
Proof.
  unfold stages. repeat (apply List.Forall_cons); try apply List.Forall_nil; cbn [snd];
    unfold checkSyntaxCompliance, checkSyntax, checkBaselineAPIs, checkPackageExports,
      checkPackage, runPublint, validateSourcemaps, validateSourcemap, checkBundleSize,
      reportSize, validateModuleIntegrity, checkModule, execSync, spawnSync, log,
      logSection;
    repeat step_tidy.
Qed.

Lemma tidy_checkPackageExports (w : World) : tidy (checkPackageExports w).
Proof.
  unfold checkPackageExports, checkPackage, runPublint, validateSourcemaps,
    validateSourcemap, execSync, log, logSection.
  repeat step_tidy.
Qed.

(** X12. From a file system whose temporary directories all have numbers
    already given, the import test leaves the set of temporary directories
    as it was, however it ends, and keeps that property. *)
Theorem X12_import_test_leaves_no_directory (w : World) (pkgName : string) (s : FS) :
  fresh s ->
  sandboxes (final (testPackageImports w pkgName s)) = sandboxes s /\
  fresh (final (testPackageImports w pkgName s)).
Proof. intros Hs. destruct (tidy_testPackageImports w pkgName s Hs). auto. Qed.

(** X13. From such a file system, the whole run, and the package exports
    stage alone, leave the temporary directories as they were, also when the
    run ends with an exception. *)
Theorem X13_run_leaves_no_directory (w : World) (s : FS) :
  fresh s ->
  sandboxes (final (main w s)) = sandboxes s /\
  sandboxes (final (checkPackageExports w s)) = sandboxes s.
Proof.
  intros Hs. split.
  - assert (tidy (main w)) as H.
    { unfold main, log, logSection.
      repeat first [ apply tidy_run_stages, tidy_stages | step_tidy ]. }
    apply H, Hs.
  - apply tidy_checkPackageExports, Hs.
Qed.

Lemma X13_run_leaves_no_directory_witness :
  fresh empty_fs /\ sandboxes (final (main demo_world empty_fs)) = ∅.
Proof.
  assert (fresh empty_fs) as Hf by (intros d _; apply lookup_empty).
  split; [exact Hf|]. apply (X13_run_leaves_no_directory demo_world empty_fs Hf).
Defined.

Lemma X12_import_test_leaves_no_directory_witness :
  fresh empty_fs /\
  sandboxes (final (testPackageImports collision_world "package" empty_fs)) = ∅.
Proof.
  assert (fresh empty_fs) as Hf by (intros d _; apply lookup_empty).
  split; [exact Hf|].
  apply (X12_import_test_leaves_no_directory collision_world "package" empty_fs Hf).
Defined.

(** ** The order of the steps of the import test *)

Lemma phases_app (n : nat) (A R : list Event) :
  Forall (fun e => in_phase n e = true) A ->
  phases_ordered R -> phases_from n R ->
  phases_ordered (A ++ R) /\ phases_from n (A ++ R).
Proof.
  intros HA HR HF.
  assert (forall e a, e ∈ A -> phase e = Some a -> a = n) as HA'.
  { intros e a Hin Hp. rewrite Forall_forall in HA. specialize (HA e Hin).
    unfold in_phase in HA. rewrite Hp in HA. apply Nat.eqb_eq, HA. }
  split.
  - intros i j e1 e2 a b Hij Hi Hj Ha Hb.
    destruct (decide (i < length A)) as [Hi'|Hi'].
    + rewrite lookup_app_l in Hi by lia.
      pose proof (HA' e1 a (list_elem_of_lookup_2 _ _ _ Hi) Ha) as ->.
      destruct (decide (j < length A)) as [Hj'|Hj'].
      * rewrite lookup_app_l in Hj by lia.
        pose proof (HA' e2 b (list_elem_of_lookup_2 _ _ _ Hj) Hb) as ->. lia.
      * rewrite lookup_app_r in Hj by lia. unfold phases_from in HF.
        rewrite Forall_forall in HF.
        exact (HF e2 (list_elem_of_lookup_2 _ _ _ Hj) b Hb).
    + rewrite lookup_app_r in Hi, Hj by lia.
      apply (HR (i - length A) (j - length A) e1 e2); auto. lia.
  - unfold phases_from in *. apply Forall_app. split; [|exact HF].
    rewrite Forall_forall. intros e Hin a Hp. rewrite (HA' e a Hin Hp). lia.
Qed.

Lemma phases_nil (n : nat) : phases_ordered [] /\ phases_from n [].
Proof. split; [intros i j e1 e2 a b _ Hi; simplify_eq | constructor]. Qed.

Lemma phases_from_weaken (n n' : nat) (t : list Event) :
  n <= n' -> phases_from n' t -> phases_from n t.
Proof.
  intros Hle H. unfold phases_from in *. eapply Forall_impl; [exact H|].
  intros e He a Ha. specialize (He a Ha). lia.
Qed.

Lemma phases_bind (n n' : nat) {A B} (m : M A) (k : A -> M B) :
  n <= n' ->
  emits (fun e => in_phase n e = true) m ->
  (forall a s, phases_ordered (trace (k a s)) /\ phases_from n' (trace (k a s))) ->
  forall s, phases_ordered (trace (bind m k s)) /\ phases_from n (trace (bind m k s)).
Proof.
  intros Hle Hm Hk s. rewrite bind_run.
  destruct (outcome (m s)) as [a|e|c]; cbn [trace].
  - destruct (Hk a (final (m s))) as [Ho Hf].
    apply phases_app; [apply Hm | exact Ho | exact (phases_from_weaken _ _ _ Hle Hf)].
  - rewrite <- (app_nil_r (trace (m s))).
    apply phases_app; [apply Hm | apply (phases_nil n) ..].
  - rewrite <- (app_nil_r (trace (m s))).
    apply phases_app; [apply Hm | apply (phases_nil n) ..].
Qed.

Lemma phases_single (n : nat) {A} (m : M A) :
  emits (fun e => in_phase n e = true) m ->
  forall s, phases_ordered (trace (m s)) /\ phases_from n (trace (m s)).
Proof.
  intros Hm s. rewrite <- (app_nil_r (trace (m s))).
  apply phases_app; [apply Hm | apply (phases_nil n) ..].
Qed.

Lemma phases_back (t C : list Event) :
  phases_ordered t -> Forall (fun e => phase e = None) C -> phases_ordered (t ++ C).
Proof.
  intros Ht HC i j e1 e2 a b Hij Hi Hj Ha Hb. rewrite Forall_forall in HC.
  destruct (decide (j < length t)) as [Hj'|Hj'].
  - rewrite lookup_app_l in Hi, Hj by lia. eauto.
  - rewrite lookup_app_r in Hj by lia.
    pose proof (HC e2 (list_elem_of_lookup_2 _ _ _ Hj)). congruence.
Qed.

Lemma testPackageImports_try_phases (w : World) tempDir pkgName pkgJson (s : FS) :
  phases_ordered (trace (testPackageImports_try w tempDir pkgName pkgJson s)).
Proof.
  enough (phases_ordered (trace (testPackageImports_try w tempDir pkgName pkgJson s)) /\
          phases_from 0 (trace (testPackageImports_try w tempDir pkgName pkgJson s)))
    as [H _] by exact H.
  revert s. unfold testPackageImports_try.
  apply (phases_bind 0 0); [lia | apply emits_lift |]. intros deps.
  apply (phases_bind 0 0); [lia | unfold_steps; repeat first [step_emits | reflexivity] |].
  intros _.
  apply (phases_bind 0 1); [lia | unfold_steps; repeat first [step_emits | reflexivity] |].
  intros _.
  apply (phases_bind 1 2); [lia | unfold_steps; repeat first [step_emits | reflexivity] |].
  intros _.
  apply (phases_bind 2 3); [lia | unfold_steps; repeat first [step_emits | reflexivity] |].
  intros _.
  apply (phases_bind 3 4); [lia | unfold_steps; repeat first [step_emits | reflexivity] |].
  intros _.
  apply (phases_single 4). unfold_steps. repeat first [step_emits | reflexivity].
Qed.

(** X14. The steps of an import test come in the order of their
    phases: every [npm pack] and every move of an archive, then the writing
    of the manifest of the install root, then the installs of the
    dependencies, then the install of the package under test, then the
    import check. *)
Theorem X14_import_test_steps_in_order (w : World) (pkgName : string) (s : FS) :
  forall i j e1 e2 a b,
    i <= j ->
    trace (testPackageImports w pkgName s) !! i = Some e1 ->
    trace (testPackageImports w pkgName s) !! j = Some e2 ->
    phase e1 = Some a -> phase e2 = Some b -> a <= b.
Proof.
  change (phases_ordered (trace (testPackageImports w pkgName s))).
  assert (forall t C, phases_ordered t -> Forall (fun e => phase e = None) C ->
                      phases_ordered (Mkdtemp (next_tmp s) :: t ++ C)) as Hwrap.
  { intros t C Ht HC.
    apply (phases_app 0 [Mkdtemp (next_tmp s)] (t ++ C)).
    - repeat constructor.
    - apply phases_back; assumption.
    - unfold phases_from. apply Forall_forall. intros e _ a _. lia. }
  destruct (package_json w pkgName) as [pkgJson|] eqn:Hj.
  - destruct (private pkgJson) eqn:Hp.
    + unfold testPackageImports, getPackageJson. rewrite Hj. run_steps. rewrite Hp.
      unfold log. run_steps.
      intros [|i] [|j] e1 e2 a b _ Hi Hj'; simpl in *; simplify_eq; discriminate.
    + rewrite (testPackageImports_run w pkgName pkgJson s Hj Hp).
      pose proof (testPackageImports_try_phases w (next_tmp s) pkgName pkgJson
                    (after_mkdtemp s)) as Ho.
      destruct (outcome _); cbn [trace].
      * apply Hwrap; [exact Ho | repeat constructor].
      * apply Hwrap; [exact Ho | repeat constructor].
      * rewrite <- (app_nil_r (trace _)). apply Hwrap; [exact Ho | constructor].
  - unfold testPackageImports, getPackageJson. rewrite Hj. run_steps.
    intros i j e1 e2 a b _ Hi. simplify_eq.
Qed.

Lemma X14_import_test_steps_in_order_witness :
  trace (testPackageImports demo_world "core" empty_fs) !! 4
    = Some (Rename "core" "otel-core-1.0.0.tgz" 0 "package.tgz") /\
  trace (testPackageImports demo_world "core" empty_fs) !! 5
    = Some (WriteFile 0 "package.json" testPkgJson) /\
  0 <= 1.
Proof.
  split; [reflexivity|]. split; [reflexivity|].
  apply (X14_import_test_steps_in_order demo_world "core" empty_fs 4 5
           (Rename "core" "otel-core-1.0.0.tgz" 0 "package.tgz")
           (WriteFile 0 "package.json" testPkgJson) 0 1); try reflexivity. lia.
Defined.

(** ** After a child process fails *)

Lemma stops_at_failure_app (t1 t2 : list Event) :
  Forall (fun e => failed_spawn e = false) t1 ->
  stops_at_failure t2 -> stops_at_failure (t1 ++ t2).
Proof.
  intros H1 H2 i j e1 e2 Hij Hi Hj Hf. rewrite Forall_forall in H1.
  destruct (decide (i < length t1)) as [Hi'|Hi'].
  - rewrite lookup_app_l in Hi by lia.
    pose proof (H1 e1 (list_elem_of_lookup_2 _ _ _ Hi)). congruence.
  - rewrite lookup_app_r in Hi, Hj by lia.
    apply (H2 (i - length t1) (j - length t1) e1 e2); auto. lia.
Qed.

Lemma stops_at_failure_back (t C : list Event) :
  stops_at_failure t -> Forall (fun e => is_spawn e = false) C ->
  stops_at_failure (t ++ C).
Proof.
  intros Ht HC i j e1 e2 Hij Hi Hj Hf. rewrite Forall_forall in HC.
  destruct (decide (j < length t)) as [Hj'|Hj'].
  - rewrite lookup_app_l in Hi, Hj by lia. eauto.
  - rewrite lookup_app_r in Hj by lia.
    exact (HC e2 (list_elem_of_lookup_2 _ _ _ Hj)).
Qed.

Lemma stops_at_failure_nil : stops_at_failure [].
Proof. intros i j e1 e2 _ Hi. simplify_eq. Qed.

Lemma fails_fast_quiet {A} (m : M A) :
  (forall s, trace (m s) = []) -> fails_fast m.
Proof. intros H s. rewrite H. split; [constructor | apply stops_at_failure_nil]. Qed.

Lemma fails_fast_bind {A B} (m : M A) (k : A -> M B) :
  fails_fast m -> (forall a, fails_fast (k a)) -> fails_fast (bind m k).
Proof.
  intros Hm Hk s. rewrite bind_run. destruct (Hm s) as [Hr Hs].
  destruct (outcome (m s)) as [a|e|c]; cbn [outcome trace].
  - destruct (Hk a (final (m s))) as [Hr' Hs']. split.
    + intros b Hb. apply Forall_app. split; [exact (Hr a eq_refl) | exact (Hr' b Hb)].
    + apply stops_at_failure_app; [exact (Hr a eq_refl) | exact Hs'].
  - split; [discriminate | exact Hs].
  - split; [discriminate | exact Hs].
Qed.

Lemma fails_fast_for_of {A} (xs : list A) (body : A -> M unit) :
  (forall x, fails_fast (body x)) -> fails_fast (for_of xs body).
Proof.
  intros H. induction xs as [|x xs IH]; simpl.
  - apply fails_fast_quiet. reflexivity.
  - apply fails_fast_bind; [apply H | intros _; exact IH].
Qed.

Lemma fails_fast_emit (e : Event) : failed_spawn e = false -> fails_fast (emit e).
Proof.
  intros H s. cbn. split; [repeat constructor; exact H|].
  intros [|i] [|j] e1 e2 Hij Hi Hj; simpl in *; simplify_eq; lia.
Qed.

Lemma fails_fast_execSync (c : Command) (status : option Z) :
  fails_fast (execSync c status).
Proof.
  intros s. unfold execSync. run_steps. split.
  - destruct (succeeded status) eqn:E; cbn [outcome trace app]; [|discriminate].
    intros _ _. repeat constructor. cbn. rewrite E. reflexivity.
  - assert (stops_at_failure [Spawn c status]) as H.
    { intros [|i] [|j] e1 e2 Hij Hi Hj; simpl in *; simplify_eq; lia. }
    destruct (succeeded status); exact H.
Qed.

Ltac step_fails_fast :=
  match goal with
  | |- fails_fast (bind _ _) => apply fails_fast_bind; [|intros ?]
  | |- fails_fast (execSync _ _) => apply fails_fast_execSync
  | |- fails_fast (emit _) => apply fails_fast_emit; reflexivity
  | |- fails_fast (for_of _ _) => apply fails_fast_for_of; intros ?
  | |- fails_fast (if ?b then _ else _) => destruct b
  | |- fails_fast (match ?x with _ => _ end) => destruct x
  | |- fails_fast _ => apply fails_fast_quiet; reflexivity
  end.

Lemma testPackageImports_try_fails_fast (w : World) tempDir pkgName pkgJson :
  fails_fast (testPackageImports_try w tempDir pkgName pkgJson).
Proof.
  unfold testPackageImports_try, packWorkspaceDependency, packMainPackage,
    testEsmImport, npmPack, npmInstall, renameSync, writeFileSync, put_sandbox,
    sandbox_of.
  repeat step_fails_fast.
Qed.

(** X15. In an import test, no child process is spawned after one that
    did not exit with status [0]. *)
Theorem X15_import_test_stops_at_failure (w : World) (pkgName : string) (s : FS) :
  forall i j e1 e2,
    i < j ->
    trace (testPackageImports w pkgName s) !! i = Some e1 ->
    trace (testPackageImports w pkgName s) !! j = Some e2 ->
    failed_spawn e1 = true -> is_spawn e2 = false.
Proof.
  change (stops_at_failure (trace (testPackageImports w pkgName s))).
  destruct (package_json w pkgName) as [pkgJson|] eqn:Hj.
  - destruct (private pkgJson) eqn:Hp.
    + unfold testPackageImports, getPackageJson. rewrite Hj. run_steps. rewrite Hp.
      unfold log. run_steps.
      intros [|i] [|j] e1 e2 Hij Hi Hj'; simpl in *; simplify_eq; discriminate.
    + rewrite (testPackageImports_run w pkgName pkgJson s Hj Hp).
      destruct (testPackageImports_try_fails_fast w (next_tmp s) pkgName pkgJson
                  (after_mkdtemp s)) as [_ Hs].
      destruct (outcome _); cbn [trace];
        apply (stops_at_failure_app [_]); try (repeat constructor);
        try (apply stops_at_failure_back; [exact Hs | repeat constructor]).
      exact Hs.
  - unfold testPackageImports, getPackageJson. rewrite Hj. run_steps.
    apply stops_at_failure_nil.
Qed.

(** ** The archive of the package under test *)

Lemma bind_returned_final {A B} (m : M A) (k : A -> M B) (s : FS) (b : B) :
  outcome (bind m k s) = Ret b ->
  exists a, outcome (m s) = Ret a /\
            outcome (k a (final (m s))) = Ret b /\
            trace (bind m k s) = trace (m s) ++ trace (k a (final (m s))) /\
            final (bind m k s) = final (k a (final (m s))).
Proof.
  rewrite bind_run. destruct (outcome (m s)) as [a|e|c]; cbn [outcome trace final];
    try discriminate.
  intros H. exists a. auto.
Qed.

Lemma keeps_listings_quiet {A} (m : M A) :
  (forall s, final (m s) = s) -> keeps_listings m.
Proof. intros H s. rewrite H. reflexivity. Qed.

Lemma keeps_listings_bind {A B} (m : M A) (k : A -> M B) :
  keeps_listings m -> (forall a, keeps_listings (k a)) -> keeps_listings (bind m k).
Proof.
  intros Hm Hk s. rewrite bind_run.
  destruct (outcome (m s)) as [a|e|c]; cbn [final]; [|apply Hm..].
  rewrite Hk. apply Hm.
Qed.

Lemma keeps_listings_for_of {A} (xs : list A) (body : A -> M unit) :
  (forall x, keeps_listings (body x)) -> keeps_listings (for_of xs body).
Proof.
  intros H. induction xs as [|x xs IH]; simpl.
  - apply keeps_listings_quiet. reflexivity.
  - apply keeps_listings_bind; [apply H | intros _; exact IH].
Qed.

Lemma keeps_listings_put_sandbox d sb : keeps_listings (put_sandbox d sb).
Proof. intros s. reflexivity. Qed.

Ltac step_keeps :=
  match goal with
  | |- keeps_listings (bind _ _) => apply keeps_listings_bind; [|intros ?]
  | |- keeps_listings (put_sandbox _ _) => apply keeps_listings_put_sandbox
  | |- keeps_listings (for_of _ _) => apply keeps_listings_for_of; intros ?
  | |- keeps_listings (if ?b then _ else _) => destruct b
  | |- keeps_listings (match ?x with _ => _ end) => destruct x
  | |- keeps_listings _ => apply keeps_listings_quiet; reflexivity
  end.

Lemma remove_file_gone (f : string) (l : list string) : f ∉ remove_file f l.
Proof.
  unfold remove_file. rewrite list_elem_of_In, filter_In. intros [_ H].
  rewrite String.eqb_refl in H. discriminate.
Qed.

Lemma packMainPackage_moved (w : World) tempDir pkgName pkgJson (s : FS) u :
  outcome (packMainPackage w tempDir pkgName pkgJson s) = Ret u ->
  exists tarball,
    Rename pkgName tarball tempDir "package.tgz"
      ∈ trace (packMainPackage w tempDir pkgName pkgJson s) /\
    tarball ∉ readdir (final (packMainPackage w tempDir pkgName pkgJson s)) pkgName.
Proof.
  unfold packMainPackage. rewrite bind_run, npmPack_run. cbv zeta.
  destruct (succeeded _); cbn [outcome final trace]; [|discriminate].
  destruct (safeNameOf (name pkgJson)) as [safeName|e|c]; run_steps;
    try discriminate.
  destruct (findTarball _ safeName) as [tarball|] eqn:Hf; [|discriminate].
  unfold renameSync, sandbox_of. run_steps.
  destruct (sandboxes (after_pack w pkgName s) !! tempDir); [|discriminate].
  intros _. cbn [ret outcome final trace app]. run_steps.
  exists tarball. split; [set_solver|].
  unfold readdir at 1. cbn [pkgdirs]. rewrite lookup_insert_eq. cbn.
  apply remove_file_gone.
Qed.

(** X16. An import test that returns [true] has moved the archive it
    found for the package under test out of the package directory: the
    listing of that directory it leaves does not have it. *)
Theorem X16_archive_moved_out (w : World) (pkgName : string) (pkgJson : PackageJson) (s : FS) :
  package_json w pkgName = Some pkgJson ->
  private pkgJson = false ->
  outcome (testPackageImports w pkgName s) = Ret true ->
  exists tarball,
    Rename pkgName tarball (next_tmp s) "package.tgz"
      ∈ trace (testPackageImports w pkgName s) /\
    tarball ∉ readdir (final (testPackageImports w pkgName s)) pkgName.
Proof.
  intros Hj Hp. rewrite (testPackageImports_run w pkgName pkgJson s Hj Hp).
  destruct (outcome (testPackageImports_try w (next_tmp s) pkgName pkgJson
                                            (after_mkdtemp s)))
    as [b|e|c] eqn:E; cbn [outcome trace final]; try discriminate.
  intros _. revert E. unfold testPackageImports_try. intros H.
  apply bind_returned_final in H as [deps [_ [H [-> ->]]]].
  apply bind_returned_final in H as [u1 [_ [H [-> ->]]]].
  apply bind_returned_final in H as [u2 [Hpack [_ [-> ->]]]].
  apply packMainPackage_moved in Hpack as [tarball [Hin Hout]].
  exists tarball. split.
  - rewrite elem_of_cons, !elem_of_app. auto 10.
  - assert (keeps_listings
              (writeFileSync (next_tmp s) "package.json" testPkgJson ;;
               for_of deps (fun depPkg =>
                 npmInstall w (next_tmp s) (NpmInstallDep (next_tmp s) depPkg)
                            (depPkg ++ ".tgz")) ;;
               npmInstall w (next_tmp s) (NpmInstallMain (next_tmp s)) "package.tgz" ;;
               testEsmImport w (next_tmp s) pkgJson ;;
               ret true)) as Hk.
    { unfold writeFileSync, npmInstall, testEsmImport, sandbox_of, execSync.
      repeat step_keeps. }
    unfold readdir in *. cbn [after_rm pkgdirs]. rewrite Hk. exact Hout.
Qed.

Lemma X16_archive_moved_out_witness :
  outcome (testPackageImports demo_world "api" empty_fs) = Ret true /\
  exists tarball,
    Rename "api" tarball 0 "package.tgz"
      ∈ trace (testPackageImports demo_world "api" empty_fs) /\
    tarball ∉ readdir (final (testPackageImports demo_world "api" empty_fs)) "api".
Proof.
  split; [vm_compute; reflexivity|].
  apply (X16_archive_moved_out demo_world "api" (manifest "@otel/api" [] false) empty_fs);
    vm_compute; reflexivity.
Defined.

(** ** Dependencies by name *)

Lemma ofilter_ext {A} (f g : A -> Outcome bool) (l : list A) :
  (forall x, f x = g x) -> ofilter f l = ofilter g l.
Proof.
  intros H. induction l as [|x l IH]; [reflexivity|].
  cbn [ofilter]. rewrite H, IH. reflexivity.
Qed.

(** X6. The resolver looks at names only: two manifests whose
    dependencies and peer dependencies, taken together, have the same keys
    resolve to the same result (the same list, or the same exception),
    whatever the version ranges are and on whichever of the two mappings a
    key is. *)
Theorem X6_dependencies_by_name_only (w : World) (pkgJson pkgJson' : PackageJson) :
  (forall n,
      is_Some (dependencies pkgJson !! n) \/ is_Some (peerDependencies pkgJson !! n) <->
      is_Some (dependencies pkgJson' !! n) \/ is_Some (peerDependencies pkgJson' !! n)) ->
  getWorkspaceDependencies w pkgJson = getWorkspaceDependencies w pkgJson'.
Proof.
  intros H.
  assert (forall x, keys_include (allDepsOf pkgJson) x = keys_include (allDepsOf pkgJson') x)
    as Hk.
  { intros x. apply eq_true_iff_eq. rewrite !keys_include_spec.
    split; intros [n [-> Hn]]; exists n; (split; [reflexivity|]); apply H, Hn. }
  unfold getWorkspaceDependencies. cbv zeta.
  match goal with |- obind ?o _ = _ => destruct o as [names|e|c] end;
    cbn [obind]; try reflexivity.
  apply ofilter_ext. intros pkg.
  destruct (getPackageJson w pkg) as [j|e|c]; cbn [obind]; try reflexivity.
  destruct (bool_decide _); [|reflexivity].
  rewrite Hk. reflexivity.
Qed.

Lemma X6_dependencies_by_name_only_witness :
  getWorkspaceDependencies demo_world (manifest "@otel/core" [("@otel/api", "^1.0.0")] false)
  = getWorkspaceDependencies demo_world
      (manifest "@otel/core" [("@otel/api", "workspace:*")] false).
Proof.
  apply X6_dependencies_by_name_only. intros n. cbn [dependencies peerDependencies manifest].
  destruct (decide (n = "@otel/api")) as [->|Hne].
  - split; intros _; left; vm_compute; eauto.
  - assert (forall r, (list_to_map [("@otel/api", r)] : gmap string string) !! n = None)
      as Hnone.
    { intros r. apply not_elem_of_list_to_map_1. cbn.
      intros Hin. apply list_elem_of_singleton in Hin. congruence. }
    rewrite !Hnone, lookup_empty. reflexivity.
Defined.

Lemma X9_unreadable_manifest_fails_imports_witness :
  readable stale_world = false /\
  exists e,
    testPackageImports stale_world "api" empty_fs =
    MkRun (Ret false) (after_rm 0 (after_mkdtemp empty_fs))
          [Mkdtemp 0; Log [red] ("    ✗ Import test failed: " ++ e); RmSync 0].
Proof.
  split; [vm_compute; reflexivity|].
  apply (X9_unreadable_manifest_fails_imports stale_world "api" (manifest "@otel/api" [] false)
           empty_fs); vm_compute; reflexivity.
Defined.

Lemma X10_unreadable_manifest_aborts_witness :
  "old" ∈ getPackagesWithDist stale_world /\
  (exists e, outcome (main stale_world empty_fs) = Throw e) /\
  Forall (fun ev => after_exports ev = false) (trace (main stale_world empty_fs)).
Proof.
  assert ("old" ∈ getPackagesWithDist stale_world) as Hin.
  { apply list_elem_of_In. vm_compute. tauto. }
  split; [exact Hin|].
  apply (X10_unreadable_manifest_aborts stale_world "old" empty_fs Hin); reflexivity.
Defined.

Lemma X8_publint_every_package_witness :
  readable demo_world = true /\
  List.filter is_publint (trace (checkPackageExports demo_world empty_fs))
  = [Spawn (Publint "api") (Some 0%Z); Spawn (Publint "core") (Some 0%Z);
     Spawn (Publint "tools") (Some 0%Z)].
Proof.
  split; [vm_compute; reflexivity|].
  rewrite (X8_publint_every_package demo_world empty_fs); vm_compute; reflexivity.
Defined.

Lemma X15_import_test_stops_at_failure_witness :
  trace (testPackageImports install_failing_world "core" empty_fs) !! 6
    = Some (Spawn (NpmInstallDep 0 "api") (Some 1%Z)) /\
  forall j e,
    6 < j ->
    trace (testPackageImports install_failing_world "core" empty_fs) !! j = Some e ->
    is_spawn e = false.
Proof.
  split; [reflexivity|]. intros j e Hj He.
  apply (X15_import_test_stops_at_failure install_failing_world "core" empty_fs 6 j
           (Spawn (NpmInstallDep 0 "api") (Some 1%Z)) e Hj); [reflexivity | exact He |
           reflexivity].
Defined.
